(** * SocketLabs Node.js client: the [send] pipeline of [socketlabsClient.js]

    The development embeds [src/socketlabsClient.js] (the class
    [SocketLabsClient]: its constructor and [send]) together with the modules
    it [require]s.  The required modules whose files are not part of the
    sources ([sendResultEnum], [sendResponse], [core/sendValidator],
    [core/injectionRequestFactory]) enter [send] through the record
    [Requires]; models of them that follow the specification's wording live in
    the modules [Validator], [Factory] and [Response]. *)

From Stdlib Require Import String Ascii List ZArith Bool Lia.
Import ListNotations.
Open Scope string_scope.

(** ** JavaScript values *)

(** The values that flow through the client.  Numbers are the integral ones
    (a server id is an integer identifier). *)
#[local] Set Warnings "-register-all".
Inductive JsValue : Type :=
| JsUndefined
| JsNull
| JsBool (b : bool)
| JsNum (z : Z)
| JsStr (s : string)
| JsArr (items : list JsValue)
| JsObj (fields : list (string * JsValue)).

(** The truth value JavaScript gives a value in [if (v)] and [v && ...]. *)
Definition truthy (v : JsValue) : bool :=
  match v with
  | JsUndefined | JsNull => false
  | JsBool b => b
  | JsNum z => negb (z =? 0)%Z
  | JsStr s => negb (s =? "")
  | JsArr _ | JsObj _ => true
  end.

(** [typeof v === 'string'] *)
Definition typeof_string (v : JsValue) : bool :=
  match v with JsStr _ => true | _ => false end.

(** Property lookup [o.k] on an object given by its list of fields (the
    objects built below never repeat a key). *)
Fixpoint lookup (k : string) (fields : list (string * JsValue)) : option JsValue :=
  match fields with
  | [] => None
  | (k', v) :: rest => if k' =? k then Some v else lookup k rest
  end.

Definition get (k : string) (o : JsValue) : JsValue :=
  match o with
  | JsObj fields => match lookup k fields with Some v => v | None => JsUndefined end
  | _ => JsUndefined
  end.

(** ** Result codes and responses *)

(** Modelled from the spec: [sendResultEnum] ([src/sendResultEnum.js] is not
    among the sources).  The closed result-code enumeration of section 7. *)
Inductive SendResult : Type :=
| Success
| Warning
| InvalidServerId
| InvalidApiKey
| InvalidAuthentication
| AccountDisabled
| EmailAddressValidationFailed
| RecipientValidationFailed
| MessageValidationFailed
| AttachmentValidationFailed
| TooManyRecipients
| ServerValidationFailed
| InternalError
| UnknownError.

Definition SendResult_eq_dec (a b : SendResult) : {a = b} + {a <> b}.
Proof. decide equality. Defined.

(** [a === b] on result codes. *)
Definition SendResult_eqb (a b : SendResult) : bool :=
  if SendResult_eq_dec a b then true else false.

Definition allSendResults : list SendResult :=
  [ Success; Warning; InvalidServerId; InvalidApiKey; InvalidAuthentication;
    AccountDisabled; EmailAddressValidationFailed; RecipientValidationFailed;
    MessageValidationFailed; AttachmentValidationFailed; TooManyRecipients;
    ServerValidationFailed; InternalError; UnknownError ].

(** Modelled from the spec: the class [sendResponse] ([src/sendResponse.js]
    is not among the sources).  Section 4.3: [result], [responseMessage]
    (string or absent) and, on success, [transactionReceipt] and
    [messageResults]. *)
Record SendResponse : Type := mkSendResponse {
  result : SendResult;
  responseMessage : option string;
  transactionReceipt : option string;
  messageResults : list JsValue
}.

(** Modelled from the spec: the constructor call
    [new sendResponse({ result: r })] of [src/sendResponse.js] (not among
    the sources).  Section 4.3 gives a response a [responseMessage] that is
    a "string or absent" and a receipt and message results "on success";
    a response built from a result code alone is taken to have none of
    the three. *)
Definition new_sendResponse (r : SendResult) : SendResponse :=
  mkSendResponse r None None [].

(** [resp.responseMessage = msg] *)
Definition set_responseMessage (resp : SendResponse) (msg : string) : SendResponse :=
  mkSendResponse (result resp) (Some msg) (transactionReceipt resp) (messageResults resp).

(** ** The client facade ([socketlabsClient.js]) *)

(** The fields the constructor sets on [this]. *)
Record Client : Type := mkClient {
  serverId : JsValue;
  apiKey : JsValue;
  userAgent : string;
  endpointUrl : JsValue
}.

(** The options object handed to [request.post]. *)
Record PostOptions : Type := mkPostOptions {
  body : JsValue;
  headers : list (string * string);
  json : bool;
  url : JsValue
}.

(** The arguments [(err, res, body)] the transport passes to the callback. *)
Record Reply : Type := mkReply {
  err : JsValue;
  res : JsValue;
  replyBody : JsValue
}.

(** How the promise returned by [factory.generateRequest] settles. *)
Inductive FactoryOutcome : Type :=
| FResolved (requestJson : JsValue)
| FRejected (errorResult : SendResponse).

(** The outcome of a call that may throw. *)
Inductive Completion (A : Type) : Type :=
| Normal (a : A)
| Thrown (e : JsValue).
Arguments Normal {A} a.
Arguments Thrown {A} e.

(** What [socketlabsClient.js] obtains with [require] and from the runtime:
    [version] of [package.json], [process.version], the validator's
    [validateCredentials], the factory's [generateRequest], [request.post]
    (by the reply its callback receives) and [sendResponse.parse].  [M] is
    the type of [messageData], which [send] passes on and never inspects. *)
Record Requires (M : Type) : Type := mkRequires {
  version : string;
  process_version : string;
  validateCredentials : JsValue -> JsValue -> SendResponse;
  generateRequest : M -> FactoryOutcome;
  request_post : PostOptions -> Reply;
  parse : JsValue -> Completion SendResponse
}.
Arguments version {M} _.
Arguments process_version {M} _.
Arguments validateCredentials {M} _ _ _.
Arguments generateRequest {M} _ _.
Arguments request_post {M} _ _.
Arguments parse {M} _ _.

(** The state of the promise [send] returns. *)
Inductive PromiseState : Type :=
| Pending
| Fulfilled (value : SendResponse)
| Rejected (reason : SendResponse).

(** The calls [send] makes, in the order it makes them. *)
Inductive Event (M : Type) : Type :=
| EvValidateCredentials (sid key : JsValue)
| EvGenerateRequest (messageData : M)
| EvPost (options : PostOptions)
| EvParse (raw : JsValue)
| EvResolve (value : SendResponse)
| EvReject (reason : SendResponse).
Arguments EvValidateCredentials {M} sid key.
Arguments EvGenerateRequest {M} messageData.
Arguments EvPost {M} options.
Arguments EvParse {M} raw.
Arguments EvResolve {M} value.
Arguments EvReject {M} reason.

Section Facade.
Context {M : Type}.
Variable env : Requires M.

(** A destructured option with the default [null]: [undefined] becomes
    [null], any other value is kept. *)
Definition default_param (v : JsValue) : JsValue :=
  match v with JsUndefined => JsNull | _ => v end.

(** [v !== ''] *)
Definition not_empty_string (v : JsValue) : bool :=
  match v with JsStr "" => false | _ => true end.

(** [constructor(serverId, apiKey, { endpointUrl = null, optionalProxy = null } = {})]
    (lines 40-73): the fields it sets on [this]. *)
Definition constructor (serverId_ apiKey_ endpointUrl_ optionalProxy_ : JsValue) : Client :=
  let endpointUrl_ := default_param endpointUrl_ in
  {| serverId := serverId_;
     apiKey := apiKey_;
     userAgent :=
       "SocketLabs-node/" ++ version env ++ " (nodejs " ++ process_version env ++ ")";
     endpointUrl :=
       if truthy endpointUrl_ && not_empty_string endpointUrl_
       then endpointUrl_
       else JsStr "https://inject.socketlabs.com/api/v1/email" |}.

(** The [request.defaults] calls of the constructor (their return value
    is dropped by the source). *)
Definition constructor_defaults (optionalProxy : JsValue) : list JsValue :=
  let optionalProxy := default_param optionalProxy in
  if truthy optionalProxy && typeof_string optionalProxy
  then [JsObj [("proxy", optionalProxy)]]
  else [].

(** *** The effects of [send]: the client object, the promise, the calls *)

Record State : Type := mkState {
  this : Client;
  promise : PromiseState;
  trace : list (Event M)
}.

Definition Eff (A : Type) : Type := State -> Completion A * State.

Definition ret {A} (a : A) : Eff A := fun st => (Normal a, st).

Definition bind {A B} (m : Eff A) (k : A -> Eff B) : Eff B :=
  fun st =>
    match m st with
    | (Normal a, st') => k a st'
    | (Thrown e, st') => (Thrown e, st')
    end.

Definition throw {A} (e : JsValue) : Eff A := fun st => (Thrown e, st).

Definition getThis : Eff Client := fun st => (Normal (this st), st).

Definition log (ev : Event M) : Eff unit :=
  fun st => (Normal tt, mkState (this st) (promise st) (trace st ++ [ev])).

(** A promise settles once: later calls of [resolve] or [reject] do nothing. *)
Definition settle (outcome : PromiseState) : Eff unit :=
  fun st =>
    match promise st with
    | Pending => (Normal tt, mkState (this st) outcome (trace st))
    | _ => (Normal tt, st)
    end.

Notation "x <- m ;; k" := (bind m (fun x => k))
  (at level 61, m at next level, right associativity).
Notation "m ;;; k" := (bind m (fun _ => k))
  (at level 61, right associativity).

(** The [resolve] and [reject] functions of the promise executor. *)
Definition resolve (value : SendResponse) : Eff unit :=
  log (EvResolve value) ;;; settle (Fulfilled value).

Definition reject (reason : SendResponse) : Eff unit :=
  log (EvReject reason) ;;; settle (Rejected reason).

(** Calls into the required modules. *)
Definition call_validateCredentials (sid key : JsValue) : Eff SendResponse :=
  log (EvValidateCredentials sid key) ;;; ret (validateCredentials env sid key).

Definition call_generateRequest (messageData : M) : Eff FactoryOutcome :=
  log (EvGenerateRequest messageData) ;;; ret (generateRequest env messageData).

Definition call_post (options : PostOptions) : Eff Reply :=
  log (EvPost options) ;;; ret (request_post env options).

Definition call_parse (raw : JsValue) : Eff SendResponse :=
  log (EvParse raw) ;;;
  match parse env raw with
  | Normal response => ret response
  | Thrown e => throw e
  end.

(** The callback [function (err, res, body) { ... }] given to
    [request.post] (lines 122-142).  The [if (err)] block ends without a
    [return], so control continues with [sendResponse.parse(res)]. *)
Definition post_callback (err res body : JsValue) : Eff unit :=
  (if truthy err then
     let result := new_sendResponse UnknownError in
     let result :=
       match err with
       | JsStr s => set_responseMessage result s
       | _ => result
       end in
     reject result
   else ret tt) ;;;
  response <- call_parse res ;;
  if SendResult_eqb (result response) Success
  then resolve response
  else reject response.

(** The object literal [postBody] and the options of [request.post]
    (lines 108-121). *)
Definition postBody (this : Client) (requestJson : JsValue) : JsValue :=
  JsObj [ ("serverId", serverId this);
          ("apiKey", apiKey this);
          ("messages", JsArr [requestJson]) ].

Definition postOptions (this : Client) (requestJson : JsValue) : PostOptions :=
  {| body := postBody this requestJson;
     headers := [("User-Agent", userAgent this)];
     json := true;
     url := endpointUrl this |}.

(** The fulfilment handler [(requestJson) => { if (requestJson) { ... } }]
    (lines 105-145): there is no [else]. *)
Definition on_request (requestJson : JsValue) : Eff unit :=
  if truthy requestJson then
    this <- getThis ;;
    reply <- call_post (postOptions this requestJson) ;;
    post_callback (err reply) (res reply) (replyBody reply)
  else ret tt.

(** The executor [(resolve, reject) => { ... }] of the promise (lines
    96-149), with the handlers of [generateRequest(...).then] run once
    that promise has settled. *)
Definition executor (messageData : M) : Eff unit :=
  this <- getThis ;;
  validation <- call_validateCredentials (serverId this) (apiKey this) ;;
  if negb (SendResult_eqb (result validation) Success) then
    reject validation
  else
    outcome <- call_generateRequest messageData ;;
    match outcome with
    | FResolved requestJson => on_request requestJson
    | FRejected errorResult => reject errorResult
    end.

(** [client.send(messageData)]: the state once every callback has run.
    The one call that may throw, [sendResponse.parse], is made inside the
    transport callback, so an exception escapes that callback and leaves
    the promise as it was. *)
Definition send (client : Client) (messageData : M) : State :=
  snd (executor messageData (mkState client Pending [])).

(** The [request.post] calls and the settle calls found in a trace. *)
Definition posts (t : list (Event M)) : list PostOptions :=
  flat_map (fun ev => match ev with EvPost o => [o] | _ => [] end) t.

Definition parses (t : list (Event M)) : list JsValue :=
  flat_map (fun ev => match ev with EvParse r => [r] | _ => [] end) t.

Definition factory_calls (t : list (Event M)) : list M :=
  flat_map (fun ev => match ev with EvGenerateRequest m => [m] | _ => [] end) t.

Definition settle_calls (t : list (Event M)) : list PromiseState :=
  flat_map (fun ev =>
              match ev with
              | EvResolve v => [Fulfilled v]
              | EvReject v => [Rejected v]
              | _ => []
              end) t.

(** The reason [reject] receives in the [if (err)] block. *)
Definition transportFailure (e : JsValue) : SendResponse :=
  match e with
  | JsStr s => set_responseMessage (new_sendResponse UnknownError) s
  | _ => new_sendResponse UnknownError
  end.

(** The settle call that follows [sendResponse.parse]. *)
Definition verdict (response : SendResponse) : PromiseState :=
  if SendResult_eqb (result response) Success
  then Fulfilled response
  else Rejected response.

Definition verdictEvent (response : SendResponse) : Event M :=
  if SendResult_eqb (result response) Success
  then EvResolve response
  else EvReject response.

(** A computation that leaves the client object as it found it. *)
Definition keeps_this {A} (m : Eff A) : Prop :=
  forall st, this (snd (m st)) = this st.
End Facade.

Arguments State : clear implicits.
Arguments Eff : clear implicits.

(** ** The message model (specification, section 3) *)

(** Modelled from the spec: the classes of [message/messageClasses]
    (not among the sources), after the data model of section 3. *)
Module Message.

Record EmailAddress : Type := mkEmailAddress {
  emailAddress : string;
  friendlyName : option string
}.

Record Attachment : Type := mkAttachment {
  attachmentName : option string;
  mimeType : string;
  content : option (list Byte.byte)
}.

Record CustomHeader : Type := mkCustomHeader {
  headerName : string;
  headerValue : string
}.

Record MergeData : Type := mkMergeData {
  field : string;
  value : string
}.

Record BulkRecipient : Type := mkBulkRecipient {
  address : EmailAddress;
  mergeData : list MergeData
}.

(** The fields the two message shapes share. *)
Record Common : Type := mkCommon {
  subject : option string;
  from : option EmailAddress;
  replyTo : option EmailAddress;
  textBody : option string;
  htmlBody : option string;
  apiTemplate : option Z;
  attachments : list Attachment;
  customHeaders : list CustomHeader;
  messageId : option string;
  mailingId : option string;
  charSet : option string
}.

Record BasicMessage : Type := mkBasicMessage {
  basicCommon : Common;
  to : list EmailAddress;
  cc : list EmailAddress;
  bcc : list EmailAddress
}.

Record BulkMessage : Type := mkBulkMessage {
  bulkCommon : Common;
  bulkTo : list BulkRecipient;
  globalMergeData : list MergeData
}.

(** [messageData]: the discriminator [messageType] fixes the shape. *)
Inductive MessageData : Type :=
| Basic (m : BasicMessage)
| Bulk (m : BulkMessage).

Inductive MessageType : Type := basic | bulk.

Definition messageType (md : MessageData) : MessageType :=
  match md with Basic _ => basic | Bulk _ => bulk end.

Definition common (md : MessageData) : Common :=
  match md with Basic m => basicCommon m | Bulk m => bulkCommon m end.

(** The addresses of the recipient list [to], whatever the shape. *)
Definition recipients (md : MessageData) : list EmailAddress :=
  match md with
  | Basic m => to m
  | Bulk m => map address (bulkTo m)
  end.

(** A string field counts as empty when it is absent or has no character. *)
Definition isEmpty (s : option string) : bool :=
  match s with
  | None => true
  | Some v => v =? ""
  end.

End Message.

(** ** The validator (specification, section 4.1) *)

Module Validator.
Import Message.

(** Modelled from the spec: the [ValidationResult] of
    [core/sendValidator.js] (not among the sources), "a tagged outcome
    carrying a result code (drawn from the same enumeration used for send
    outcomes) and an optional human-readable message".  The wording of the
    messages is not specified; none is attached. *)
Definition fail (code : SendResult) : SendResponse := new_sendResponse code.
Definition pass : SendResponse := new_sendResponse Success.

(** Modelled from the spec: the server id rule of [validateCredentials]
    ([core/sendValidator.js], not among the sources): a server id is
    refused when it "is missing, non-numeric, or <= 0". *)
Definition serverIdOk (serverId : JsValue) : bool :=
  match serverId with
  | JsNum z => (0 <? z)%Z
  | _ => false
  end.

(** Modelled from the spec: the API key rule of [validateCredentials]
    ([core/sendValidator.js], not among the sources): a key is refused when
    it "is missing or empty". *)
Definition apiKeyOk (apiKey : JsValue) : bool :=
  match apiKey with
  | JsUndefined | JsNull => false
  | JsStr s => negb (s =? "")
  | _ => true
  end.

(** Modelled from the spec: [validateCredentials] of [core/sendValidator.js],
    which is not among the sources.  "fails with InvalidServerId when
    serverId is missing, non-numeric, or <= 0; fails with InvalidApiKey when
    apiKey is missing or empty; otherwise succeeds." *)
Definition validateCredentials (serverId apiKey : JsValue) : SendResponse :=
  if negb (serverIdOk serverId) then fail InvalidServerId
  else if negb (apiKeyOk apiKey) then fail InvalidApiKey
  else pass.

Section Rules.
(** What "looks like a valid address" means and the largest recipient
    count allowed ("a configurable upper bound") are left open by the
    specification. *)
Variable wellFormed : string -> bool.
Variable maxRecipients : nat.

(** Modelled from the spec: the four rules of [validateMessage]
    ([core/sendValidator.js], not among the sources).  The sender rule:
    "From is absent/malformed". *)
Definition fromOk (c : Common) : bool :=
  match from c with
  | Some a => wellFormed (emailAddress a)
  | None => false
  end.

(** Modelled from the spec: the recipient rule, "the recipient list is
    empty, any entry is malformed, or the count exceeds the maximum allowed". *)
Definition recipientsOk (rs : list EmailAddress) : bool :=
  negb (Nat.eqb (length rs) 0)
  && forallb (fun a => wellFormed (emailAddress a)) rs
  && Nat.leb (length rs) maxRecipients.

(** Modelled from the spec: the content rule, "Subject is empty or both
    body fields are empty". *)
Definition contentOk (c : Common) : bool :=
  negb (isEmpty (subject c))
  && negb (isEmpty (textBody c) && isEmpty (htmlBody c)).

(** Modelled from the spec: the attachment rule, "an attachment entry is
    missing a name or content". *)
Definition attachmentOk (a : Attachment) : bool :=
  match attachmentName a, content a with
  | Some n, Some _ => negb (n =? "")
  | _, _ => false
  end.

(** Modelled from the spec: [validateMessage] of [core/sendValidator.js],
    which is not among the sources.  The four rules of section 4.1;
    "validation short-circuits on first failure".  The section does not
    say in which order the rules are tried; they are tried here in the
    order it lists them, so the code given to a message that breaks
    several rules is a choice of this model.  The properties below use
    only which messages pass ([validateMessage_passes]), which no order
    changes. *)
Definition validateMessage (md : MessageData) : SendResponse :=
  let c := common md in
  if negb (fromOk c) then fail EmailAddressValidationFailed
  else if negb (recipientsOk (recipients md)) then fail RecipientValidationFailed
  else if negb (contentOk c) then fail MessageValidationFailed
  else if negb (forallb attachmentOk (attachments c)) then fail AttachmentValidationFailed
  else pass.
End Rules.

End Validator.

(** ** The request factory (specification, section 4.2) *)

Module Factory.
Import Message.

(** A key of the wire object that is written only when its value is there. *)
Definition optional (k : string) (v : option JsValue) : list (string * JsValue) :=
  match v with
  | Some x => [(k, x)]
  | None => []
  end.

Definition nonEmptyArray (items : list JsValue) : option JsValue :=
  match items with
  | [] => None
  | _ => Some (JsArr items)
  end.

Definition addressJson (a : EmailAddress) : JsValue :=
  JsObj (("emailAddress", JsStr (emailAddress a))
           :: optional "friendlyName" (option_map JsStr (friendlyName a))).

Definition headerJson (h : CustomHeader) : JsValue :=
  JsObj [("name", JsStr (headerName h)); ("value", JsStr (headerValue h))].

Definition mergeJson (d : MergeData) : JsValue :=
  JsObj [("field", JsStr (field d)); ("value", JsStr (value d))].

(** The per-recipient merge data, one array per entry of [to]. *)
Definition perRecipientJson (rs : list BulkRecipient) : list JsValue :=
  map (fun r => JsArr (map mergeJson (mergeData r))) rs.

Section Build.
Variable wellFormed : string -> bool.
Variable maxRecipients : nat.
(** The base64 encoder; [None] is an encoding failure. *)
Variable base64 : list Byte.byte -> option string.

Definition attachmentJson (a : Attachment) : option JsValue :=
  match content a with
  | Some bytes =>
      match base64 bytes with
      | Some text =>
          Some (JsObj (optional "name" (option_map JsStr (attachmentName a))
                         ++ [("content", JsStr text);
                             ("contentType", JsStr (mimeType a))]))
      | None => None
      end
  | None => None
  end.

Fixpoint attachmentsJson (l : list Attachment) : option (list JsValue) :=
  match l with
  | [] => Some []
  | a :: rest =>
      match attachmentJson a, attachmentsJson rest with
      | Some j, Some js => Some (j :: js)
      | _, _ => None
      end
  end.

(** The keys only one of the two shapes has. *)
Definition copies (md : MessageData) : list (string * JsValue) :=
  match md with
  | Basic m =>
      optional "cc" (nonEmptyArray (map addressJson (cc m)))
        ++ optional "bcc" (nonEmptyArray (map addressJson (bcc m)))
  | Bulk _ => []
  end.

Definition merges (md : MessageData) : list (string * JsValue) :=
  match md with
  | Basic _ => []
  | Bulk m =>
      [ ("globalMergeData", JsArr (map mergeJson (globalMergeData m)));
        ("mergeData", JsArr (perRecipientJson (bulkTo m))) ]
  end.

(** Modelled from the spec: the wire object of
    [core/injectionRequestFactory.js] (not among the sources), its keys in
    the order section 4.2 lists them.  A field that is absent and a list
    that is empty are left out, as in the scenario of section 8; a bulk
    message always carries [globalMergeData] and [mergeData]. *)
Definition wireObject (md : MessageData) (encoded : list JsValue) : JsValue :=
  let c := common md in
  JsObj (optional "subject" (option_map JsStr (subject c))
           ++ optional "from" (option_map addressJson (from c))
           ++ optional "replyTo" (option_map addressJson (replyTo c))
           ++ optional "to" (nonEmptyArray (map addressJson (recipients md)))
           ++ copies md
           ++ optional "textBody" (option_map JsStr (textBody c))
           ++ optional "htmlBody" (option_map JsStr (htmlBody c))
           ++ optional "apiTemplate" (option_map JsNum (apiTemplate c))
           ++ optional "customHeaders"
                (nonEmptyArray (map headerJson (customHeaders c)))
           ++ optional "attachments" (nonEmptyArray encoded)
           ++ optional "mailingId" (option_map JsStr (mailingId c))
           ++ optional "messageId" (option_map JsStr (messageId c))
           ++ optional "charSet" (option_map JsStr (charSet c))
           ++ merges md).

(** Modelled from the spec: [generateRequest] of
    [core/injectionRequestFactory.js], which is not among the sources.
    It rejects with the validator's result when the message does not
    have the shape of its discriminator, rejects with
    [AttachmentValidationFailed] when an attachment cannot be encoded,
    and resolves with the wire object otherwise. *)
Definition generateRequest (md : MessageData) : FactoryOutcome :=
  let checked := Validator.validateMessage wellFormed maxRecipients md in
  if negb (SendResult_eqb (result checked) Success) then FRejected checked
  else
    match attachmentsJson (attachments (common md)) with
    | Some encoded => FResolved (wireObject md encoded)
    | None => FRejected (Validator.fail AttachmentValidationFailed)
    end.
End Build.

(** *** Reading a wire object back *)

(** The fields of the documented schema the round trip is about. *)
Record Envelope : Type := mkEnvelope {
  envSubject : option string;
  envFrom : option EmailAddress;
  envTo : list EmailAddress;
  envTextBody : option string;
  envHtmlBody : option string
}.

Definition envelopeOf (m : BasicMessage) : Envelope :=
  {| envSubject := subject (basicCommon m);
     envFrom := from (basicCommon m);
     envTo := to m;
     envTextBody := textBody (basicCommon m);
     envHtmlBody := htmlBody (basicCommon m) |}.

Definition readString (v : JsValue) : option string :=
  match v with
  | JsStr s => Some s
  | _ => None
  end.

Definition readAddress (v : JsValue) : option EmailAddress :=
  match get "emailAddress" v with
  | JsStr e => Some (mkEmailAddress e (readString (get "friendlyName" v)))
  | _ => None
  end.

Fixpoint readAddresses (items : list JsValue) : option (list EmailAddress) :=
  match items with
  | [] => Some []
  | v :: rest =>
      match readAddress v, readAddresses rest with
      | Some a, Some l => Some (a :: l)
      | _, _ => None
      end
  end.

(** An absent key reads as an absent address, an absent array as no entry. *)
Definition readOptionalAddress (v : JsValue) : option (option EmailAddress) :=
  match v with
  | JsUndefined => Some None
  | _ => option_map Some (readAddress v)
  end.

Definition readAddressArray (v : JsValue) : option (list EmailAddress) :=
  match v with
  | JsUndefined => Some []
  | JsArr items => readAddresses items
  | _ => None
  end.

(** Modelled from the spec: reading a merge data entry, an object with
    the keys [field] and [value] (section 3), and an array of such entries
    back from a wire object; the sources hold no reader of the wire format. *)
Definition readMergeData (v : JsValue) : option MergeData :=
  match get "field" v, get "value" v with
  | JsStr f, JsStr x => Some (mkMergeData f x)
  | _, _ => None
  end.

Fixpoint readMergeDataList (items : list JsValue) : option (list MergeData) :=
  match items with
  | [] => Some []
  | v :: rest =>
      match readMergeData v, readMergeDataList rest with
      | Some d, Some l => Some (d :: l)
      | _, _ => None
      end
  end.

Definition readMergeArray (v : JsValue) : option (list MergeData) :=
  match v with
  | JsArr items => readMergeDataList items
  | _ => None
  end.

(** Modelled from the spec: re-parsing a wire object ("building a wire
    request from a valid BasicMessage and re-parsing it"); the sources hold
    no reader of the wire format. *)
Definition reparse (wire : JsValue) : option Envelope :=
  match readOptionalAddress (get "from" wire), readAddressArray (get "to" wire) with
  | Some sender, Some rcpts =>
      Some {| envSubject := readString (get "subject" wire);
              envFrom := sender;
              envTo := rcpts;
              envTextBody := readString (get "textBody" wire);
              envHtmlBody := readString (get "htmlBody" wire) |}
  | _, _ => None
  end.

End Factory.

(** ** The response interpreter (specification, section 4.3) *)

Module Response.

Definition codeNames : list (string * SendResult) :=
  [ ("Success", Success); ("Warning", Warning);
    ("InvalidServerId", InvalidServerId); ("InvalidApiKey", InvalidApiKey);
    ("InvalidAuthentication", InvalidAuthentication);
    ("AccountDisabled", AccountDisabled);
    ("EmailAddressValidationFailed", EmailAddressValidationFailed);
    ("RecipientValidationFailed", RecipientValidationFailed);
    ("MessageValidationFailed", MessageValidationFailed);
    ("AttachmentValidationFailed", AttachmentValidationFailed);
    ("TooManyRecipients", TooManyRecipients);
    ("ServerValidationFailed", ServerValidationFailed);
    ("InternalError", InternalError); ("UnknownError", UnknownError) ].

Definition codeOfName (s : string) : option SendResult :=
  option_map snd (find (fun p => fst p =? s) codeNames).

Definition isStatus (n : Z) (v : JsValue) : bool :=
  match v with
  | JsNum z => (z =? n)%Z
  | _ => false
  end.

(** Modelled from the spec: [parse] of [sendResponse.js], which is not
    among the sources.  Status 200 with [errorCode] "Success" is a success
    carrying the receipt and the per-message results; 401 and 403 are
    [InvalidAuthentication]; another recognised [errorCode] is that code;
    anything else, a missing response included, is [UnknownError]. *)
Definition parse (httpResponse : JsValue) : SendResponse :=
  let status := get "statusCode" httpResponse in
  let payload := get "body" httpResponse in
  let code :=
    match get "errorCode" payload with
    | JsStr s => codeOfName s
    | _ => None
    end in
  if isStatus 200 status
     && match code with Some Success => true | _ => false end
  then
    mkSendResponse Success None
      (Factory.readString (get "transactionReceipt" payload))
      (match get "messageResults" payload with JsArr l => l | _ => [] end)
  else if isStatus 401 status || isStatus 403 status
  then new_sendResponse InvalidAuthentication
  else
    match code with
    | Some Success | None => new_sendResponse UnknownError
    | Some c => new_sendResponse c
    end.

End Response.

(** ** Base64 (RFC 4648), the encoding of attachment content *)

Module Base64.

Definition alphabet : list ascii :=
  list_ascii_of_string
    "ABCDEFGHIJKLMNOPQRSTUVWXYZabcdefghijklmnopqrstuvwxyz0123456789+/".

Definition sextet (n : N) : ascii := nth (N.to_nat n) alphabet "="%char.

Fixpoint groups (bytes : list N) : list ascii :=
  match bytes with
  | [] => []
  | [a] =>
      [sextet (a / 4); sextet ((a mod 4) * 16); "="%char; "="%char]
  | [a; b] =>
      [sextet (a / 4); sextet ((a mod 4) * 16 + b / 16);
       sextet ((b mod 16) * 4); "="%char]
  | a :: b :: c :: rest =>
      sextet (a / 4) :: sextet ((a mod 4) * 16 + b / 16)
        :: sextet ((b mod 16) * 4 + c / 64) :: sextet (c mod 64)
        :: groups rest
  end%N.

Definition encode (bytes : list Byte.byte) : option string :=
  Some (string_of_list_ascii (groups (map Byte.to_N bytes))).

End Base64.

(** ** Sample data *)

Module Sample.
Import Message.

(** An address is taken to look valid when it has an [@]. *)
Definition hasAt (s : string) : bool :=
  existsb (Ascii.eqb "@"%char) (list_ascii_of_string s).

Definition limit : nat := 50.

Definition env (reply : Reply) : Requires MessageData :=
  {| version := "1.0.0";
     process_version := "v10.15.3";
     validateCredentials := Validator.validateCredentials;
     generateRequest := Factory.generateRequest hasAt limit Base64.encode;
     request_post := fun _ => reply;
     parse := fun raw => Normal (Response.parse raw) |}.

Definition noCommon : Common :=
  mkCommon None None None None None None [] [] None None None.

Definition alice : EmailAddress := mkEmailAddress "a@x.com" None.
Definition bob : EmailAddress := mkEmailAddress "b@x.com" None.
Definition carol : EmailAddress := mkEmailAddress "c@x.com" (Some "Carol").

Definition note : Attachment :=
  mkAttachment (Some "note.txt") "text/plain" (Some [Byte.x4d; Byte.x61; Byte.x6e]).

(** from a\@x.com, to b\@x.com, subject "Hi", text body "body" *)
Definition hiCommon : Common :=
  mkCommon (Some "Hi") (Some alice) None (Some "body") None None [] [] None None None.

Definition hi : BasicMessage := mkBasicMessage hiCommon [bob] [] [].

Definition hiWithNote : BasicMessage :=
  mkBasicMessage
    (mkCommon (Some "Hi") (Some alice) None (Some "body") (Some "<p>body</p>")
       None [note] [mkCustomHeader "X-Tag" "t"] None None None)
    [bob; carol] [] [].

Definition newsletter : BulkMessage :=
  mkBulkMessage
    (mkCommon (Some "Hello %%name%%") (Some alice) None (Some "Dear %%name%%")
       None None [note] [] None None None)
    [ mkBulkRecipient bob [mkMergeData "name" "Bob"];
      mkBulkRecipient carol [mkMergeData "name" "Carol"; mkMergeData "city" "Oslo"] ]
    [mkMergeData "year" "2019"].

(** A message whose only fault is an empty [to]. *)
Definition noRecipient : MessageData :=
  Basic (mkBasicMessage hiCommon [] [] []).

Definition goodClient (e : Requires MessageData) : Client :=
  constructor e (JsNum 12345) (JsStr "apiKey") JsUndefined JsUndefined.

(** The transport answers with a 200 and a success body. *)
Definition accepted : Reply :=
  mkReply JsNull
    (JsObj [ ("statusCode", JsNum 200);
             ("body", JsObj [ ("errorCode", JsStr "Success");
                              ("transactionReceipt", JsStr "abc") ]) ])
    (JsObj [ ("errorCode", JsStr "Success");
             ("transactionReceipt", JsStr "abc") ]).

(** The transport answers with a 401. *)
Definition refused : Reply :=
  mkReply JsNull
    (JsObj [ ("statusCode", JsNum 401);
             ("body", JsObj [("errorCode", JsStr "InvalidAuthentication")]) ])
    (JsObj [("errorCode", JsStr "InvalidAuthentication")]).

(** The transport fails: an error and no response. *)
Definition connectionReset : Reply :=
  mkReply (JsStr "ECONNRESET") JsUndefined JsUndefined.

(** A factory that resolves with [null]. *)
Definition nullFactory (reply : Reply) : Requires MessageData :=
  {| version := version (env reply);
     process_version := process_version (env reply);
     validateCredentials := validateCredentials (env reply);
     generateRequest := fun _ => FResolved JsNull;
     request_post := request_post (env reply);
     parse := parse (env reply) |}.

(** A [sendResponse.parse] that throws on a response without a body. *)
Definition strictParse (reply : Reply) : Requires MessageData :=
  {| version := version (env reply);
     process_version := process_version (env reply);
     validateCredentials := validateCredentials (env reply);
     generateRequest := generateRequest (env reply);
     request_post := request_post (env reply);
     parse := fun raw =>
                match get "body" raw with
                | JsUndefined => Thrown (JsStr "TypeError")
                | _ => Normal (Response.parse raw)
                end |}.

(** The transport answers without an error and without a response. *)
Definition silent : Reply := mkReply JsNull JsUndefined JsUndefined.

End Sample.

(** ** Conditions the properties are stated with *)

(** The credential rules of section 4.1, as conditions on the two values. *)
Definition Missing (v : JsValue) : Prop := v = JsUndefined \/ v = JsNull.

Definition ServerIdInvalid (v : JsValue) : Prop :=
  Missing v \/ (forall z, v <> JsNum z) \/ (exists z, v = JsNum z /\ (z <= 0)%Z).

Definition ApiKeyInvalid (v : JsValue) : Prop := Missing v \/ v = JsStr "".

(** What section 4.1 asks of a [validateCredentials]. *)
Definition CredentialRules (check : JsValue -> JsValue -> SendResponse) : Prop :=
  (forall sid key, ServerIdInvalid sid -> result (check sid key) = InvalidServerId)
  /\ (forall sid key,
         ~ ServerIdInvalid sid -> ApiKeyInvalid key ->
         result (check sid key) = InvalidApiKey).

(** [send] ends refused with [code]: the promise is rejected with a reason
    of that code, and the call made nothing but the credential check and
    that [reject]. *)
Definition RefusedWith {M : Type} (st : State M) (client : Client) (code : SendResult) : Prop :=
  exists reason,
    result reason = code
    /\ promise st = Rejected reason
    /\ trace st = [ EvValidateCredentials (serverId client) (apiKey client);
                    EvReject reason ]
    /\ factory_calls (trace st) = []
    /\ posts (trace st) = [].

(** The two shapes of a [User-Agent] value: the one the specification
    writes, [<client-name>/<version> (<runtime>/<runtime-version>)], and the
    one with a space between the runtime and its version. *)
Definition SlashForm (ua : string) : Prop :=
  exists name ver runtime runtimeVersion,
    ua = name ++ "/" ++ ver ++ " (" ++ runtime ++ "/" ++ runtimeVersion ++ ")".

Definition SpaceForm (ua : string) : Prop :=
  exists name ver runtime runtimeVersion,
    ua = name ++ "/" ++ ver ++ " (" ++ runtime ++ " " ++ runtimeVersion ++ ")".

(** The number of [/] in a string. *)
Fixpoint slashes (s : string) : nat :=
  match s with
  | EmptyString => 0
  | String c rest => (if Ascii.eqb c "/"%char then 1 else 0) + slashes rest
  end.

(** The credential checks found in a trace. *)
Definition credential_checks {M : Type} (t : list (Event M)) : list (JsValue * JsValue) :=
  flat_map (fun ev =>
              match ev with
              | EvValidateCredentials sid key => [(sid, key)]
              | _ => []
              end) t.

(** The ways one call of [send] can go, each with the state it ends in:
    the credentials are refused (line 101); the factory rejects (line 147);
    the factory resolves with a falsy value (line 106, no [else]); the
    transport reports an error (lines 124-141); the response is parsed
    (lines 135-141); [sendResponse.parse] throws (line 135). *)
Inductive Run {M : Type} (env : Requires M) (client : Client) (messageData : M)
  : State M -> Prop :=
| RunRefused :
    result (validateCredentials env (serverId client) (apiKey client)) <> Success ->
    Run env client messageData
      (mkState client
         (Rejected (validateCredentials env (serverId client) (apiKey client)))
         [ EvValidateCredentials (serverId client) (apiKey client);
           EvReject (validateCredentials env (serverId client) (apiKey client)) ])
| RunFactoryRejected (errorResult : SendResponse) :
    result (validateCredentials env (serverId client) (apiKey client)) = Success ->
    generateRequest env messageData = FRejected errorResult ->
    Run env client messageData
      (mkState client (Rejected errorResult)
         [ EvValidateCredentials (serverId client) (apiKey client);
           EvGenerateRequest messageData;
           EvReject errorResult ])
| RunNoRequest (requestJson : JsValue) :
    result (validateCredentials env (serverId client) (apiKey client)) = Success ->
    generateRequest env messageData = FResolved requestJson ->
    truthy requestJson = false ->
    Run env client messageData
      (mkState client Pending
         [ EvValidateCredentials (serverId client) (apiKey client);
           EvGenerateRequest messageData ])
| RunTransportError (requestJson : JsValue) (reply : Reply) :
    result (validateCredentials env (serverId client) (apiKey client)) = Success ->
    generateRequest env messageData = FResolved requestJson ->
    truthy requestJson = true ->
    request_post env (postOptions client requestJson) = reply ->
    truthy (err reply) = true ->
    Run env client messageData
      (mkState client (Rejected (transportFailure (err reply)))
         ([ EvValidateCredentials (serverId client) (apiKey client);
            EvGenerateRequest messageData;
            EvPost (postOptions client requestJson);
            EvReject (transportFailure (err reply));
            EvParse (res reply) ]
            ++ match parse env (res reply) with
               | Normal response => [verdictEvent response]
               | Thrown _ => []
               end))
| RunParsed (requestJson : JsValue) (reply : Reply) (response : SendResponse) :
    result (validateCredentials env (serverId client) (apiKey client)) = Success ->
    generateRequest env messageData = FResolved requestJson ->
    truthy requestJson = true ->
    request_post env (postOptions client requestJson) = reply ->
    truthy (err reply) = false ->
    parse env (res reply) = Normal response ->
    Run env client messageData
      (mkState client (verdict response)
         [ EvValidateCredentials (serverId client) (apiKey client);
           EvGenerateRequest messageData;
           EvPost (postOptions client requestJson);
           EvParse (res reply);
           verdictEvent response ])
| RunParseThrew (requestJson : JsValue) (reply : Reply) (thrown : JsValue) :
    result (validateCredentials env (serverId client) (apiKey client)) = Success ->
    generateRequest env messageData = FResolved requestJson ->
    truthy requestJson = true ->
    request_post env (postOptions client requestJson) = reply ->
    truthy (err reply) = false ->
    parse env (res reply) = Thrown thrown ->
    Run env client messageData
      (mkState client Pending
         [ EvValidateCredentials (serverId client) (apiKey client);
           EvGenerateRequest messageData;
           EvPost (postOptions client requestJson);
           EvParse (res reply) ]).

(** * Properties *)

Example base64_Man : Base64.encode [Byte.x4d; Byte.x61; Byte.x6e] = Some "TWFu".
Proof. reflexivity. Qed.

Example base64_Ma : Base64.encode [Byte.x4d; Byte.x61] = Some "TWE=".
Proof. reflexivity. Qed.

Example base64_M : Base64.encode [Byte.x4d] = Some "TQ==".
Proof. reflexivity. Qed.

Example hi_wire :
  Factory.generateRequest Sample.hasAt Sample.limit Base64.encode (Message.Basic Sample.hi)
  = FResolved (JsObj [ ("subject", JsStr "Hi");
                       ("from", JsObj [("emailAddress", JsStr "a@x.com")]);
                       ("to", JsArr [JsObj [("emailAddress", JsStr "b@x.com")]]);
                       ("textBody", JsStr "body") ]).
Proof. reflexivity. Qed.

Example parse_accepted :
  Response.parse (res Sample.accepted)
  = mkSendResponse Success None (Some "abc") [].
Proof. reflexivity. Qed.

Example parse_no_response :
  Response.parse JsUndefined = new_sendResponse UnknownError.
Proof. reflexivity. Qed.

(** ** The facade: what one call of [send] does *)

Section FacadeProperties.
Context {M : Type}.
Variable env : Requires M.

(** *** The client object is only read *)

Lemma keeps_this_ret {A} (a : A) : keeps_this (M:=M) (ret a).
Proof. intros st; reflexivity. Qed.

Lemma keeps_this_throw {A} (e : JsValue) : keeps_this (@throw M A e).
Proof. intros st; reflexivity. Qed.

Lemma keeps_this_getThis : keeps_this (@getThis M).
Proof. intros st; reflexivity. Qed.

Lemma keeps_this_log (ev : Event M) : keeps_this (log ev).
Proof. intros st; reflexivity. Qed.

Lemma keeps_this_settle (o : PromiseState) : keeps_this (@settle M o).
Proof. intros st; unfold settle; destruct (promise st); reflexivity. Qed.

Lemma keeps_this_bind {A B} (m : Eff M A) (k : A -> Eff M B) :
  keeps_this m -> (forall a, keeps_this (k a)) -> keeps_this (bind m k).
Proof.
  intros Hm Hk st. unfold bind.
  specialize (Hm st). destruct (m st) as [[a | e] st']; cbn in *.
  - rewrite Hk. exact Hm.
  - exact Hm.
Qed.

Create HintDb frame.
#[local] Hint Resolve keeps_this_ret keeps_this_throw keeps_this_getThis
  keeps_this_log keeps_this_settle : frame.

(** Splits a computation at its binds and branches. *)
Ltac frame :=
  repeat first
    [ solve [ auto with frame ]
    | apply keeps_this_bind; [ | intro ]
    | match goal with
      | |- keeps_this (if ?c then _ else _) => destruct c
      | |- keeps_this (match ?o with _ => _ end) => destruct o
      end ].

Lemma keeps_this_resolve (v : SendResponse) : keeps_this (@resolve M v).
Proof. unfold resolve. frame. Qed.

Lemma keeps_this_reject (v : SendResponse) : keeps_this (@reject M v).
Proof. unfold reject. frame. Qed.

#[local] Hint Resolve keeps_this_resolve keeps_this_reject : frame.

Lemma keeps_this_call_parse (raw : JsValue) : keeps_this (call_parse env raw).
Proof. unfold call_parse. frame. Qed.

#[local] Hint Resolve keeps_this_call_parse : frame.

Lemma keeps_this_post_callback (e r b : JsValue) :
  keeps_this (post_callback env e r b).
Proof. unfold post_callback. frame. Qed.

#[local] Hint Resolve keeps_this_post_callback : frame.

Lemma keeps_this_on_request (requestJson : JsValue) :
  keeps_this (on_request env requestJson).
Proof. unfold on_request, call_post. frame. Qed.

#[local] Hint Resolve keeps_this_on_request : frame.

Lemma keeps_this_executor (messageData : M) :
  keeps_this (executor env messageData).
Proof.
  unfold executor, call_validateCredentials, call_generateRequest. frame.
Qed.

(** *** The state [send] ends in, branch by branch *)

Variable client : Client.
Variable messageData : M.

Let checked : SendResponse :=
  validateCredentials env (serverId client) (apiKey client).

Let asked : list (Event M) :=
  [ EvValidateCredentials (serverId client) (apiKey client);
    EvGenerateRequest messageData ].

Lemma SendResult_eqb_eq (a b : SendResult) : SendResult_eqb a b = true <-> a = b.
Proof.
  unfold SendResult_eqb. destruct (SendResult_eq_dec a b); split; congruence.
Qed.

Lemma SendResult_eqb_neq (a b : SendResult) : SendResult_eqb a b = false <-> a <> b.
Proof.
  unfold SendResult_eqb. destruct (SendResult_eq_dec a b); split; congruence.
Qed.

Lemma send_credentials_refused :
  result checked <> Success ->
  send env client messageData
  = mkState client (Rejected checked)
      [ EvValidateCredentials (serverId client) (apiKey client); EvReject checked ].
Proof.
  intros H. apply SendResult_eqb_neq in H.
  unfold send, executor, call_validateCredentials, bind, getThis, log, ret; cbn.
  fold checked. rewrite H. reflexivity.
Qed.

Lemma send_factory_rejected (errorResult : SendResponse) :
  result checked = Success ->
  generateRequest env messageData = FRejected errorResult ->
  send env client messageData
  = mkState client (Rejected errorResult) (asked ++ [EvReject errorResult]).
Proof.
  intros H Hf. apply SendResult_eqb_eq in H.
  unfold send, executor, call_validateCredentials, call_generateRequest,
    bind, getThis, log, ret; cbn.
  fold checked. rewrite H, Hf. reflexivity.
Qed.

Lemma send_runs_on_request (requestJson : JsValue) :
  result checked = Success ->
  generateRequest env messageData = FResolved requestJson ->
  send env client messageData
  = snd (on_request env requestJson (mkState client Pending asked)).
Proof.
  intros H Hf. apply SendResult_eqb_eq in H.
  unfold send, executor, call_validateCredentials, call_generateRequest,
    bind, getThis, log, ret; cbn.
  fold checked. rewrite H, Hf. reflexivity.
Qed.

Lemma send_falsy_request (requestJson : JsValue) :
  result checked = Success ->
  generateRequest env messageData = FResolved requestJson ->
  truthy requestJson = false ->
  send env client messageData = mkState client Pending asked.
Proof.
  intros H Hf Ht. rewrite (send_runs_on_request requestJson H Hf).
  unfold on_request. rewrite Ht. reflexivity.
Qed.

Lemma send_runs_callback (requestJson : JsValue) :
  result checked = Success ->
  generateRequest env messageData = FResolved requestJson ->
  truthy requestJson = true ->
  let options := postOptions client requestJson in
  let reply := request_post env options in
  send env client messageData
  = snd (post_callback env (err reply) (res reply) (replyBody reply)
           (mkState client Pending (asked ++ [EvPost options]))).
Proof.
  intros H Hf Ht. rewrite (send_runs_on_request requestJson H Hf).
  unfold on_request. rewrite Ht. reflexivity.
Qed.

Lemma callback_without_error (e r b : JsValue) (st : State M) (response : SendResponse) :
  truthy e = false ->
  parse env r = Normal response ->
  promise st = Pending ->
  snd (post_callback env e r b st)
  = mkState (this st) (verdict response)
      (trace st ++ [EvParse r; verdictEvent response]).
Proof.
  intros He Hp Hs.
  unfold post_callback, call_parse, bind, log, ret, verdict, verdictEvent.
  rewrite He; cbn. rewrite Hp.
  destruct (SendResult_eqb (result response) Success); cbn;
    rewrite Hs, <- app_assoc; reflexivity.
Qed.

Lemma callback_parse_throws (e r b x : JsValue) (st : State M) :
  truthy e = false ->
  parse env r = Thrown x ->
  snd (post_callback env e r b st)
  = mkState (this st) (promise st) (trace st ++ [EvParse r]).
Proof.
  intros He Hp.
  unfold post_callback, call_parse, bind, log, ret, throw.
  rewrite He; cbn. rewrite Hp. reflexivity.
Qed.

Lemma callback_with_error (e r b : JsValue) (st : State M) :
  truthy e = true ->
  promise st = Pending ->
  snd (post_callback env e r b st)
  = mkState (this st) (Rejected (transportFailure e))
      (trace st ++ [EvReject (transportFailure e); EvParse r]
         ++ match parse env r with
            | Normal response => [verdictEvent response]
            | Thrown _ => []
            end).
Proof.
  intros He Hs.
  unfold post_callback, call_parse, reject, resolve, bind, log, settle, ret, throw,
    verdictEvent.
  rewrite He; cbn. rewrite Hs.
  replace (match e with
           | JsStr s => set_responseMessage (new_sendResponse UnknownError) s
           | _ => new_sendResponse UnknownError
           end) with (transportFailure e) by reflexivity.
  destruct (parse env r) as [response | x]; cbn.
  - destruct (SendResult_eqb (result response) Success); cbn;
      rewrite <- !app_assoc; reflexivity.
  - rewrite <- !app_assoc. reflexivity.
Qed.

End FacadeProperties.

(** *** Credentials (lines 97-102) *)

Lemma serverIdOk_false (v : JsValue) :
  Validator.serverIdOk v = false <-> ServerIdInvalid v.
Proof.
  unfold ServerIdInvalid, Missing. split.
  - destruct v; cbn; intros H;
      try (right; left; intros z; discriminate);
      try (left; auto; fail).
    right; right. exists z. split; [ reflexivity | ].
    apply Z.ltb_ge. exact H.
  - intros [[H | H] | [H | [z [H Hz]]]]; subst; try reflexivity.
    + destruct v; try reflexivity. exfalso. apply (H z). reflexivity.
    + cbn. apply Z.ltb_ge. exact Hz.
Qed.

Lemma apiKeyOk_false (v : JsValue) :
  Validator.apiKeyOk v = false <-> ApiKeyInvalid v.
Proof.
  unfold ApiKeyInvalid, Missing. split.
  - destruct v; cbn; intros H; try discriminate; auto.
    right. apply negb_false_iff, String.eqb_eq in H. subst. reflexivity.
  - intros [[H | H] | H]; subst; reflexivity.
Qed.

Lemma validateCredentials_rules : CredentialRules Validator.validateCredentials.
Proof.
  split; intros sid key.
  - intros H. apply serverIdOk_false in H.
    unfold Validator.validateCredentials. rewrite H. reflexivity.
  - intros Hs Hk. apply apiKeyOk_false in Hk.
    unfold Validator.validateCredentials.
    destruct (Validator.serverIdOk sid) eqn:E.
    + cbn. rewrite Hk. reflexivity.
    + exfalso. apply Hs, serverIdOk_false, E.
Qed.

(** C2: when [validateCredentials] follows the rules of section 4.1, a client
    whose server id is missing, not a number or not positive has [send]
    reject with [InvalidServerId], and one whose server id is valid but whose
    API key is missing or empty has [send] reject with [InvalidApiKey]; in
    both cases the trace of the call holds the credential check and the
    [reject] and nothing else: no wire request is built and nothing is posted. *)
Theorem send_rejects_bad_credentials :
  forall (M : Type) (env : Requires M) (client : Client) (messageData : M),
    CredentialRules (validateCredentials env) ->
    let st := send env client messageData in
    (ServerIdInvalid (serverId client) -> RefusedWith st client InvalidServerId)
    /\ (~ ServerIdInvalid (serverId client) -> ApiKeyInvalid (apiKey client) ->
        RefusedWith st client InvalidApiKey).
Proof.
  intros M env client messageData [Hsid Hkey] st.
  assert (Hgen : forall code,
             result (validateCredentials env (serverId client) (apiKey client)) = code ->
             code <> Success ->
             RefusedWith st client code).
  { intros code Hc Hne.
    exists (validateCredentials env (serverId client) (apiKey client)).
    subst st. rewrite send_credentials_refused by congruence.
    repeat split; auto. }
  split.
  - intros H. apply Hgen; [ apply Hsid, H | discriminate ].
  - intros Hs Hk. apply Hgen; [ apply Hkey; assumption | discriminate ].
Qed.

Lemma send_rejects_bad_credentials_witness :
  CredentialRules (validateCredentials (Sample.env Sample.accepted))
  /\ ServerIdInvalid (JsNum 0)
  /\ (exists reason,
         result reason = InvalidServerId
         /\ promise (send (Sample.env Sample.accepted)
                       (constructor (Sample.env Sample.accepted)
                          (JsNum 0) (JsStr "x") JsUndefined JsUndefined)
                       (Message.Basic Sample.hi)) = Rejected reason)
  /\ ~ ServerIdInvalid (JsNum 123)
  /\ ApiKeyInvalid (JsStr "")
  /\ (exists reason,
         result reason = InvalidApiKey
         /\ promise (send (Sample.env Sample.accepted)
                       (constructor (Sample.env Sample.accepted)
                          (JsNum 123) (JsStr "") JsUndefined JsUndefined)
                       (Message.Basic Sample.hi)) = Rejected reason).
Proof.
  assert (H0 : ServerIdInvalid (JsNum 0)).
  { right; right. exists 0%Z. split; [ reflexivity | lia ]. }
  assert (H1 : ~ ServerIdInvalid (JsNum 123)).
  { intros [[H | H] | [H | [z [H Hz]]]]; try discriminate.
    - apply (H 123%Z). reflexivity.
    - injection H as H. lia. }
  assert (H2 : ApiKeyInvalid (JsStr "")) by (right; reflexivity).
  split; [ exact validateCredentials_rules | ].
  split; [ exact H0 | ].
  split.
  { destruct (proj1 (send_rejects_bad_credentials _ (Sample.env Sample.accepted)
                       (constructor (Sample.env Sample.accepted)
                          (JsNum 0) (JsStr "x") JsUndefined JsUndefined)
                       (Message.Basic Sample.hi) validateCredentials_rules) H0)
      as [reason [Hr [Hp _]]].
    exists reason. split; assumption. }
  split; [ exact H1 | ].
  split; [ exact H2 | ].
  destruct (proj2 (send_rejects_bad_credentials _ (Sample.env Sample.accepted)
                     (constructor (Sample.env Sample.accepted)
                        (JsNum 123) (JsStr "") JsUndefined JsUndefined)
                     (Message.Basic Sample.hi) validateCredentials_rules) H1 H2)
    as [reason [Hr [Hp _]]].
  exists reason. split; assumption.
Defined.

(** *** The transport callback (lines 122-142) *)

Lemma posts_app {M : Type} (t u : list (Event M)) : posts (t ++ u) = (posts t ++ posts u)%list.
Proof. apply flat_map_app. Qed.

Lemma parses_app {M : Type} (t u : list (Event M)) : parses (t ++ u) = (parses t ++ parses u)%list.
Proof. apply flat_map_app. Qed.

Lemma settle_calls_app {M : Type} (t u : list (Event M)) :
  settle_calls (t ++ u) = (settle_calls t ++ settle_calls u)%list.
Proof. apply flat_map_app. Qed.

Lemma posts_verdict {M : Type} (response : SendResponse) :
  posts [@verdictEvent M response] = [].
Proof.
  unfold verdictEvent.
  destruct (SendResult_eqb (result response) Success); reflexivity.
Qed.

Lemma allSendResults_complete (code : SendResult) : In code allSendResults.
Proof. destruct code; cbn; tauto. Qed.

(** When the transport reports an error, [send] rejects with [UnknownError]
    (carrying the error when it is a string), and goes on to call
    [sendResponse.parse] on the raw response. *)
Lemma send_transport_error :
  forall (M : Type) (env : Requires M) (client : Client) (messageData : M)
         (requestJson : JsValue),
    result (validateCredentials env (serverId client) (apiKey client)) = Success ->
    generateRequest env messageData = FResolved requestJson ->
    truthy requestJson = true ->
    let reply := request_post env (postOptions client requestJson) in
    truthy (err reply) = true ->
    let st := send env client messageData in
    promise st = Rejected (transportFailure (err reply))
    /\ result (transportFailure (err reply)) = UnknownError
    /\ parses (trace st) = [res reply].
Proof.
  intros M env client messageData requestJson Hc Hf Ht reply He st.
  subst st. rewrite (send_runs_callback env client messageData requestJson Hc Hf Ht).
  cbv zeta. fold reply. rewrite callback_with_error by (assumption || reflexivity).
  cbn [promise trace]. split; [ reflexivity | ]. split.
  - destruct (err reply); reflexivity.
  - rewrite !parses_app. cbn.
    destruct (parse env (res reply)) as [response | x]; [ | reflexivity ].
    unfold verdictEvent.
    destruct (SendResult_eqb (result response) Success); reflexivity.
Qed.

(** C1: the call in which the transport fails with the string "ECONNRESET"
    and no response.  The promise is rejected with [UnknownError] and that
    message, and after the [reject] the callback still hands the missing
    response to [sendResponse.parse] and calls [reject] a second time. *)
Theorem send_transport_error_parses_anyway :
  let env := Sample.env Sample.connectionReset in
  let st := send env (Sample.goodClient env) (Message.Basic Sample.hi) in
  promise st = Rejected (mkSendResponse UnknownError (Some "ECONNRESET") None [])
  /\ parses (trace st) = [JsUndefined]
  /\ settle_calls (trace st)
     = [ Rejected (mkSendResponse UnknownError (Some "ECONNRESET") None []);
         Rejected (mkSendResponse UnknownError None None []) ].
Proof. cbv zeta. repeat split; vm_compute; reflexivity. Qed.

(** C5: when the credentials pass, the factory resolves with a wire object,
    the transport reports no error and [sendResponse.parse] returns a
    response, [send] resolves with that response exactly when its result is
    [Success] and rejects with it otherwise; [resolve] or [reject] is called
    once, and the response carries one code of the enumeration. *)
Theorem send_settles_with_parsed_response :
  forall (M : Type) (env : Requires M) (client : Client) (messageData : M)
         (requestJson : JsValue) (response : SendResponse),
    result (validateCredentials env (serverId client) (apiKey client)) = Success ->
    generateRequest env messageData = FResolved requestJson ->
    truthy requestJson = true ->
    let reply := request_post env (postOptions client requestJson) in
    truthy (err reply) = false ->
    parse env (res reply) = Normal response ->
    let st := send env client messageData in
    (result response = Success -> promise st = Fulfilled response)
    /\ (result response <> Success -> promise st = Rejected response)
    /\ (promise st = Fulfilled response <-> result response = Success)
    /\ settle_calls (trace st) = [promise st]
    /\ parses (trace st) = [res reply]
    /\ In (result response) allSendResults.
Proof.
  intros M env client messageData requestJson response Hc Hf Ht reply He Hp st.
  subst st. rewrite (send_runs_callback env client messageData requestJson Hc Hf Ht).
  cbv zeta. fold reply.
  rewrite (callback_without_error env _ _ _ _ response) by (assumption || reflexivity).
  cbn [promise trace].
  assert (Hyes : result response = Success -> verdict response = Fulfilled response).
  { intros H. unfold verdict. apply SendResult_eqb_eq in H. rewrite H. reflexivity. }
  assert (Hno : result response <> Success -> verdict response = Rejected response).
  { intros H. unfold verdict. apply SendResult_eqb_neq in H. rewrite H. reflexivity. }
  repeat split.
  - exact Hyes.
  - exact Hno.
  - intros H. destruct (SendResult_eq_dec (result response) Success) as [E | E];
      [ exact E | ]. rewrite (Hno E) in H. discriminate.
  - exact Hyes.
  - rewrite settle_calls_app. cbn.
    unfold verdictEvent, verdict.
    destruct (SendResult_eqb (result response) Success); reflexivity.
  - rewrite !parses_app. cbn. unfold verdictEvent.
    destruct (SendResult_eqb (result response) Success); reflexivity.
  - apply allSendResults_complete.
Qed.

Lemma send_settles_with_parsed_response_witness :
  (promise (send (Sample.env Sample.accepted)
              (Sample.goodClient (Sample.env Sample.accepted))
              (Message.Basic Sample.hi))
   = Fulfilled (mkSendResponse Success None (Some "abc") []))
  /\ (promise (send (Sample.env Sample.refused)
                 (Sample.goodClient (Sample.env Sample.refused))
                 (Message.Basic Sample.hi))
      = Rejected (new_sendResponse InvalidAuthentication)).
Proof.
  split.
  - refine (proj1 (send_settles_with_parsed_response _ (Sample.env Sample.accepted)
                     (Sample.goodClient (Sample.env Sample.accepted))
                     (Message.Basic Sample.hi) _
                     (mkSendResponse Success None (Some "abc") [])
                     _ _ _ _ _) _);
      reflexivity.
  - refine (proj1 (proj2 (send_settles_with_parsed_response _ (Sample.env Sample.refused)
                     (Sample.goodClient (Sample.env Sample.refused))
                     (Message.Basic Sample.hi) _
                     (new_sendResponse InvalidAuthentication)
                     _ _ _ _ _)) _);
      [ reflexivity .. | discriminate ].
Defined.

(** *** The request that is posted (lines 58 and 108-121) *)

Lemma slashes_app (s t : string) : slashes (s ++ t) = slashes s + slashes t.
Proof.
  induction s as [ | c s IH]; cbn; [ reflexivity | ].
  rewrite IH. lia.
Qed.

Lemma SlashForm_slashes (ua : string) : SlashForm ua -> 2 <= slashes ua.
Proof.
  intros (name & ver & runtime & runtimeVersion & ->).
  rewrite !slashes_app. cbn. lia.
Qed.

Lemma posts_after_callback {M : Type} (env : Requires M) (e r b : JsValue) (st : State M) :
  promise st = Pending ->
  posts (trace (snd (post_callback env e r b st))) = posts (trace st).
Proof.
  intros Hs. destruct (truthy e) eqn:He.
  - rewrite callback_with_error by assumption. cbn [trace].
    rewrite !posts_app. cbn.
    destruct (parse env r); [ rewrite posts_verdict | ]; cbn; apply app_nil_r.
  - destruct (parse env r) as [response | x] eqn:Hp.
    + rewrite (callback_without_error env e r b st response) by assumption.
      cbn [trace]. rewrite posts_app.
      change [EvParse r; verdictEvent response]
        with ([EvParse r] ++ [@verdictEvent M response])%list.
      rewrite posts_app, posts_verdict. cbn. apply app_nil_r.
    + rewrite (callback_parse_throws env e r b x st) by assumption.
      cbn [trace]. rewrite posts_app. cbn. apply app_nil_r.
Qed.

(** C6 (as stated, refuted): a client built for package version 1.0.0 on
    Node v10.15.3 posts one request whose [User-Agent] is
    "SocketLabs-node/1.0.0 (nodejs v10.15.3)", which is not of the form
    [<client-name>/<version> (<runtime>/<runtime-version>)]. *)
Lemma user_agent_has_no_second_slash :
  exists options,
    posts (trace (send (Sample.env Sample.accepted)
                    (Sample.goodClient (Sample.env Sample.accepted))
                    (Message.Basic Sample.hi))) = [options]
    /\ headers options = [("User-Agent", "SocketLabs-node/1.0.0 (nodejs v10.15.3)")]
    /\ ~ SlashForm "SocketLabs-node/1.0.0 (nodejs v10.15.3)".
Proof.
  eexists. split; [ vm_compute; reflexivity | ].
  split; [ reflexivity | ].
  intros H. apply SlashForm_slashes in H. cbn in H. lia.
Qed.

(** C6 (amended): when the credentials pass and the factory resolves with a
    wire object, [send] issues exactly one POST; its body is
    [{serverId, apiKey, messages: [wireObject]}] with that one element, it is
    sent as JSON to the endpoint of the client, and its only header is a
    [User-Agent] of the form
    [SocketLabs-node/<version> (nodejs <process.version>)]. *)
Theorem send_posts_one_message :
  forall (M : Type) (env : Requires M) (sid key endpoint proxy : JsValue)
         (messageData : M) (wireObject : JsValue),
    let client := constructor env sid key endpoint proxy in
    result (validateCredentials env sid key) = Success ->
    generateRequest env messageData = FResolved wireObject ->
    truthy wireObject = true ->
    let ua := "SocketLabs-node/" ++ version env
                ++ " (nodejs " ++ process_version env ++ ")" in
    posts (trace (send env client messageData))
    = [ {| body := JsObj [ ("serverId", sid);
                           ("apiKey", key);
                           ("messages", JsArr [wireObject]) ];
           headers := [("User-Agent", ua)];
           json := true;
           url := endpointUrl client |} ]
    /\ SpaceForm ua.
Proof.
  intros M env sid key endpoint proxy messageData wireObject client Hc Hf Ht ua.
  split.
  - rewrite (send_runs_callback env client messageData wireObject Hc Hf Ht).
    cbv zeta. rewrite posts_after_callback by reflexivity.
    cbn [trace]. rewrite posts_app. reflexivity.
  - exists "SocketLabs-node", (version env), "nodejs", (process_version env).
    reflexivity.
Qed.

Lemma send_posts_one_message_witness :
  posts (trace (send (Sample.env Sample.refused)
                  (constructor (Sample.env Sample.refused)
                     (JsNum 7) (JsStr "k") (JsStr "https://example.test/inject") JsNull)
                  (Message.Basic Sample.hi)))
  = [ {| body := JsObj [ ("serverId", JsNum 7);
                         ("apiKey", JsStr "k");
                         ("messages",
                          JsArr [ JsObj [ ("subject", JsStr "Hi");
                                          ("from", JsObj [("emailAddress", JsStr "a@x.com")]);
                                          ("to", JsArr [JsObj [("emailAddress", JsStr "b@x.com")]]);
                                          ("textBody", JsStr "body") ] ]) ];
         headers := [("User-Agent", "SocketLabs-node/1.0.0 (nodejs v10.15.3)")];
         json := true;
         url := JsStr "https://example.test/inject" |} ].
Proof.
  refine (proj1 (send_posts_one_message _ (Sample.env Sample.refused)
                   (JsNum 7) (JsStr "k") (JsStr "https://example.test/inject") JsNull
                   (Message.Basic Sample.hi) _ _ _ _));
    reflexivity.
Defined.

(** *** The configuration of the client (lines 40-73 and 95-150) *)

(** C9: after any call of [send] the fields [serverId], [apiKey],
    [endpointUrl] and [userAgent] of the client hold what they held before
    the call. *)
Theorem send_keeps_configuration :
  forall (M : Type) (env : Requires M) (client : Client) (messageData : M),
    let after := this (send env client messageData) in
    serverId after = serverId client
    /\ apiKey after = apiKey client
    /\ endpointUrl after = endpointUrl client
    /\ userAgent after = userAgent client.
Proof.
  intros M env client messageData after.
  assert (H : after = client).
  { subst after. unfold send.
    rewrite (keeps_this_executor env messageData). reflexivity. }
  rewrite H. repeat split.
Qed.

(** *** A factory that resolves with nothing (lines 104-148) *)

(** C10: when the credentials pass and [generateRequest] resolves with a
    falsy value, the call ends with the promise still pending: the trace
    holds the credential check and the factory call only, so neither
    [resolve] nor [reject] is called and nothing is posted. *)
Theorem send_never_settles_on_falsy_request :
  forall (M : Type) (env : Requires M) (client : Client) (messageData : M)
         (requestJson : JsValue),
    result (validateCredentials env (serverId client) (apiKey client)) = Success ->
    generateRequest env messageData = FResolved requestJson ->
    truthy requestJson = false ->
    let st := send env client messageData in
    promise st = Pending
    /\ trace st = [ EvValidateCredentials (serverId client) (apiKey client);
                    EvGenerateRequest messageData ]
    /\ settle_calls (trace st) = []
    /\ posts (trace st) = [].
Proof.
  intros M env client messageData requestJson Hc Hf Ht st. subst st.
  rewrite (send_falsy_request env client messageData requestJson Hc Hf Ht).
  repeat split.
Qed.

Lemma send_never_settles_on_falsy_request_witness :
  promise (send (Sample.nullFactory Sample.accepted)
             (Sample.goodClient (Sample.nullFactory Sample.accepted))
             (Message.Basic Sample.hi)) = Pending.
Proof.
  refine (proj1 (send_never_settles_on_falsy_request _
                   (Sample.nullFactory Sample.accepted)
                   (Sample.goodClient (Sample.nullFactory Sample.accepted))
                   (Message.Basic Sample.hi) JsNull _ _ _));
    reflexivity.
Defined.

(** ** The validator: which messages pass *)

Section ValidatorProperties.
Import Message.
Variable wellFormed : string -> bool.
Variable maxRecipients : nat.

Let validate := Validator.validateMessage wellFormed maxRecipients.

(** A message passes when, and only when, the four rules hold. *)
Lemma validateMessage_passes (md : MessageData) :
  result (validate md) = Success <->
  Validator.fromOk wellFormed (common md) = true
  /\ Validator.recipientsOk wellFormed maxRecipients (recipients md) = true
  /\ Validator.contentOk (common md) = true
  /\ forallb Validator.attachmentOk (attachments (common md)) = true.
Proof.
  unfold validate, Validator.validateMessage.
  destruct (Validator.fromOk wellFormed (common md));
    destruct (Validator.recipientsOk wellFormed maxRecipients (recipients md));
    destruct (Validator.contentOk (common md));
    destruct (forallb Validator.attachmentOk (attachments (common md)));
    cbn; split; try discriminate; try tauto;
    intros (? & ? & ? & ?); discriminate.
Qed.

End ValidatorProperties.

(** No validator that answers with one code can give every message with an
    empty [to] the code [RecipientValidationFailed] and every message with an
    empty subject the code [MessageValidationFailed]. *)
Remark empty_to_and_empty_subject_conflict :
  forall validate : Message.MessageData -> SendResponse,
    ~ ((forall md, Message.recipients md = [] ->
                   result (validate md) = RecipientValidationFailed)
       /\ (forall md, Message.isEmpty (Message.subject (Message.common md)) = true ->
                      result (validate md) = MessageValidationFailed)).
Proof.
  intros validate [Hto Hsubject].
  pose (md := Message.Basic (Message.mkBasicMessage Sample.noCommon [] [] [])).
  specialize (Hto md eq_refl). specialize (Hsubject md eq_refl).
  congruence.
Qed.

(** ** The request factory: the wire object *)

Section FactoryProperties.
Import Message.

Lemma lookup_skip (k k' : string) (v : option JsValue) (rest : list (string * JsValue)) :
  (k' =? k) = false ->
  lookup k (Factory.optional k' v ++ rest) = lookup k rest.
Proof.
  intros H. destruct v as [x | ]; cbn; [ rewrite H | ]; reflexivity.
Qed.

Lemma lookup_here (k : string) (v : option JsValue) (rest : list (string * JsValue)) :
  lookup k (Factory.optional k v ++ rest)
  = match v with
    | Some x => Some x
    | None => lookup k rest
    end.
Proof.
  destruct v as [x | ]; cbn; [ rewrite String.eqb_refl | ]; reflexivity.
Qed.

(** Walks a lookup past the keys that differ from the one looked up. *)
Ltac skip_keys := repeat (rewrite lookup_skip by reflexivity).

Lemma readAddress_addressJson (a : EmailAddress) :
  Factory.readAddress (Factory.addressJson a) = Some a.
Proof. destruct a as [e [n | ]]; reflexivity. Qed.

Lemma readAddresses_addressJson (l : list EmailAddress) :
  Factory.readAddresses (map Factory.addressJson l) = Some l.
Proof.
  induction l as [ | a l IH]; cbn [map Factory.readAddresses]; [ reflexivity | ].
  rewrite readAddress_addressJson, IH. reflexivity.
Qed.

Lemma readMergeData_mergeJson (d : MergeData) :
  Factory.readMergeData (Factory.mergeJson d) = Some d.
Proof. destruct d as [f x]. reflexivity. Qed.

Lemma readMergeArray_mergeJson (l : list MergeData) :
  Factory.readMergeArray (JsArr (map Factory.mergeJson l)) = Some l.
Proof.
  cbn [Factory.readMergeArray].
  induction l as [ | d l IH]; cbn [map Factory.readMergeDataList]; [ reflexivity | ].
  rewrite readMergeData_mergeJson, IH. reflexivity.
Qed.

Lemma nonEmptyArray_map {A} (f : A -> JsValue) (l : list A) :
  l <> [] -> Factory.nonEmptyArray (map f l) = Some (JsArr (map f l)).
Proof. destruct l; [ congruence | reflexivity ]. Qed.

Variable wellFormed : string -> bool.
Variable maxRecipients : nat.
Variable base64 : list Byte.byte -> option string.

Let build := Factory.generateRequest wellFormed maxRecipients base64.

Lemma recipientsOk_not_nil (rs : list EmailAddress) :
  Validator.recipientsOk wellFormed maxRecipients rs = true -> rs <> [].
Proof. intros H E. subst rs. discriminate. Qed.

(** A valid message whose attachments encode is resolved. *)
Lemma generateRequest_resolves (md : MessageData) :
  result (Validator.validateMessage wellFormed maxRecipients md) = Success ->
  Factory.attachmentsJson base64 (attachments (common md)) <> None ->
  exists encoded,
    Factory.attachmentsJson base64 (attachments (common md)) = Some encoded
    /\ build md = FResolved (Factory.wireObject md encoded).
Proof.
  intros Hv He. unfold build, Factory.generateRequest.
  apply SendResult_eqb_eq in Hv. rewrite Hv. cbn.
  destruct (Factory.attachmentsJson base64 (attachments (common md))) as [encoded | ];
    [ | congruence ].
  exists encoded. split; reflexivity.
Qed.

Lemma wire_to (md : MessageData) (encoded : list JsValue) :
  recipients md <> [] ->
  get "to" (Factory.wireObject md encoded)
  = JsArr (map Factory.addressJson (recipients md)).
Proof.
  intros H. unfold Factory.wireObject, get. skip_keys.
  rewrite lookup_here, (nonEmptyArray_map _ _ H). reflexivity.
Qed.

Lemma wire_from (md : MessageData) (encoded : list JsValue) :
  get "from" (Factory.wireObject md encoded)
  = match from (common md) with
    | Some a => Factory.addressJson a
    | None => JsUndefined
    end.
Proof.
  unfold Factory.wireObject, get. skip_keys. rewrite lookup_here.
  destruct (from (common md)); cbn [option_map]; [ reflexivity | ].
  skip_keys. destruct md as [m | m]; cbn [Factory.copies Factory.merges].
  - rewrite <- !app_assoc. skip_keys. reflexivity.
  - cbn [app]. skip_keys. reflexivity.
Qed.

Lemma wire_subject (md : MessageData) (encoded : list JsValue) :
  Factory.readString (get "subject" (Factory.wireObject md encoded))
  = subject (common md).
Proof.
  unfold Factory.wireObject, get. rewrite lookup_here.
  destruct (subject (common md)); cbn [option_map]; [ reflexivity | ].
  skip_keys. destruct md as [m | m]; cbn [Factory.copies Factory.merges].
  - rewrite <- !app_assoc. skip_keys. reflexivity.
  - cbn [app]. skip_keys. reflexivity.
Qed.

Lemma wire_textBody (m : BasicMessage) (encoded : list JsValue) :
  Factory.readString (get "textBody" (Factory.wireObject (Basic m) encoded))
  = textBody (basicCommon m).
Proof.
  unfold Factory.wireObject, get. cbn [common Factory.copies Factory.merges].
  skip_keys. rewrite <- !app_assoc. skip_keys. rewrite lookup_here.
  destruct (textBody (basicCommon m)); cbn [option_map]; [ reflexivity | ].
  skip_keys. reflexivity.
Qed.

Lemma wire_htmlBody (m : BasicMessage) (encoded : list JsValue) :
  Factory.readString (get "htmlBody" (Factory.wireObject (Basic m) encoded))
  = htmlBody (basicCommon m).
Proof.
  unfold Factory.wireObject, get. cbn [common Factory.copies Factory.merges].
  skip_keys. rewrite <- !app_assoc. skip_keys. rewrite lookup_here.
  destruct (htmlBody (basicCommon m)); cbn [option_map]; [ reflexivity | ].
  skip_keys. reflexivity.
Qed.

Lemma wire_merges (m : BulkMessage) (encoded : list JsValue) :
  get "mergeData" (Factory.wireObject (Bulk m) encoded)
  = JsArr (Factory.perRecipientJson (bulkTo m))
  /\ get "globalMergeData" (Factory.wireObject (Bulk m) encoded)
     = JsArr (map Factory.mergeJson (globalMergeData m)).
Proof.
  unfold Factory.wireObject, get. cbn [common Factory.copies Factory.merges app].
  split; skip_keys; reflexivity.
Qed.
End FactoryProperties.

(** C7: for a valid bulk message whose attachments encode, [generateRequest]
    resolves with a wire object whose [mergeData] array and [to] array both
    have one entry per recipient; for every position i, the i-th [to] entry
    reads back as the address of the i-th recipient and the i-th [mergeData]
    entry reads back as the merge data (fields and values, in order) of
    that same recipient; and the separate top-level [globalMergeData] array
    reads back as the global merge data of the message. *)
Theorem bulk_merge_data_aligned :
  forall (wellFormed : string -> bool) (maxRecipients : nat)
         (base64 : list Byte.byte -> option string) (m : Message.BulkMessage),
    result (Validator.validateMessage wellFormed maxRecipients (Message.Bulk m))
    = Success ->
    Factory.attachmentsJson base64 (Message.attachments (Message.bulkCommon m)) <> None ->
    exists wire tos perRecipient,
      Factory.generateRequest wellFormed maxRecipients base64 (Message.Bulk m)
      = FResolved wire
      /\ get "to" wire = JsArr tos
      /\ get "mergeData" wire = JsArr perRecipient
      /\ length perRecipient = length (Message.bulkTo m)
      /\ length tos = length (Message.bulkTo m)
      /\ (forall i r,
             nth_error (Message.bulkTo m) i = Some r ->
             exists entry merge,
               nth_error tos i = Some entry
               /\ Factory.readAddress entry = Some (Message.address r)
               /\ nth_error perRecipient i = Some merge
               /\ Factory.readMergeArray merge = Some (Message.mergeData r))
      /\ Factory.readMergeArray (get "globalMergeData" wire)
         = Some (Message.globalMergeData m).
Proof.
  intros wellFormed maxRecipients base64 m Hv He.
  destruct (generateRequest_resolves wellFormed maxRecipients base64 _ Hv He)
    as [encoded [_ Hb]].
  apply validateMessage_passes in Hv. destruct Hv as (_ & Hr & _).
  apply recipientsOk_not_nil in Hr.
  destruct (wire_merges m encoded) as [Hm Hg].
  exists (Factory.wireObject (Message.Bulk m) encoded),
    (map Factory.addressJson (Message.recipients (Message.Bulk m))),
    (Factory.perRecipientJson (Message.bulkTo m)).
  split; [ exact Hb | ].
  split; [ apply wire_to, Hr | ].
  split; [ exact Hm | ].
  split; [ apply length_map | ].
  split; [ cbn [Message.recipients]; rewrite !length_map; reflexivity | ].
  split; [ | rewrite Hg; apply readMergeArray_mergeJson ].
  intros i r Hi.
  exists (Factory.addressJson (Message.address r)),
    (JsArr (map Factory.mergeJson (Message.mergeData r))).
  cbn [Message.recipients]. unfold Factory.perRecipientJson.
  rewrite !nth_error_map, Hi.
  split; [ reflexivity | ].
  split; [ apply readAddress_addressJson | ].
  split; [ reflexivity | apply readMergeArray_mergeJson ].
Qed.

Lemma bulk_merge_data_aligned_witness :
  exists wire tos perRecipient,
    Factory.generateRequest Sample.hasAt Sample.limit Base64.encode
      (Message.Bulk Sample.newsletter) = FResolved wire
    /\ get "to" wire = JsArr tos
    /\ get "mergeData" wire = JsArr perRecipient
    /\ length perRecipient = 2
    /\ length tos = 2
    /\ (exists entry merge,
           nth_error tos 1 = Some entry
           /\ Factory.readAddress entry = Some Sample.carol
           /\ nth_error perRecipient 1 = Some merge
           /\ Factory.readMergeArray merge
              = Some [ Message.mkMergeData "name" "Carol";
                       Message.mkMergeData "city" "Oslo" ])
    /\ Factory.readMergeArray (get "globalMergeData" wire)
       = Some [Message.mkMergeData "year" "2019"].
Proof.
  destruct (bulk_merge_data_aligned Sample.hasAt Sample.limit Base64.encode
              Sample.newsletter)
    as (wire & tos & perRecipient & Hb & Ht & Hm & Hl & Hl' & Ha & Hg).
  - reflexivity.
  - discriminate.
  - exists wire, tos, perRecipient.
    repeat (split; [ assumption | ]).
    split; [ | exact Hg ].
    exact (Ha 1 (Message.mkBulkRecipient Sample.carol
                   [ Message.mkMergeData "name" "Carol";
                     Message.mkMergeData "city" "Oslo" ]) eq_refl).
Defined.

(** C8: for a valid basic message whose attachments encode,
    [generateRequest] resolves with a wire object, and reading that object
    back gives the subject, the From address, the [to] list, the text body
    and the HTML body of the message. *)
Theorem basic_message_round_trip :
  forall (wellFormed : string -> bool) (maxRecipients : nat)
         (base64 : list Byte.byte -> option string) (m : Message.BasicMessage),
    result (Validator.validateMessage wellFormed maxRecipients (Message.Basic m))
    = Success ->
    Factory.attachmentsJson base64 (Message.attachments (Message.basicCommon m)) <> None ->
    exists wire,
      Factory.generateRequest wellFormed maxRecipients base64 (Message.Basic m)
      = FResolved wire
      /\ Factory.reparse wire = Some (Factory.envelopeOf m).
Proof.
  intros wellFormed maxRecipients base64 m Hv He.
  destruct (generateRequest_resolves wellFormed maxRecipients base64 _ Hv He)
    as [encoded [_ Hb]].
  apply validateMessage_passes in Hv. destruct Hv as (_ & Hr & _).
  apply recipientsOk_not_nil in Hr.
  exists (Factory.wireObject (Message.Basic m) encoded).
  split; [ exact Hb | ].
  unfold Factory.reparse, Factory.envelopeOf.
  rewrite wire_from, (wire_to _ _ Hr), wire_subject, wire_textBody, wire_htmlBody.
  cbn [Message.common Message.recipients Factory.readAddressArray].
  rewrite readAddresses_addressJson.
  destruct (Message.from (Message.basicCommon m)) as [a | ]; [ | reflexivity ].
  assert (Ha : Factory.readOptionalAddress (Factory.addressJson a) = Some (Some a)).
  { change (option_map Some (Factory.readAddress (Factory.addressJson a))
            = Some (Some a)).
    rewrite readAddress_addressJson. reflexivity. }
  rewrite Ha. reflexivity.
Qed.

Lemma basic_message_round_trip_witness :
  exists wire,
    Factory.generateRequest Sample.hasAt Sample.limit Base64.encode
      (Message.Basic Sample.hiWithNote) = FResolved wire
    /\ Factory.reparse wire
       = Some (Factory.mkEnvelope (Some "Hi") (Some Sample.alice)
                 [Sample.bob; Sample.carol] (Some "body") (Some "<p>body</p>")).
Proof.
  apply (basic_message_round_trip Sample.hasAt Sample.limit Base64.encode
           Sample.hiWithNote).
  - reflexivity.
  - discriminate.
Defined.

(** ** The facade: every way a call of [send] can go *)

Lemma run_is_send {M : Type} (env : Requires M) (client : Client) (messageData : M)
  (st : State M) :
  Run env client messageData st -> st = send env client messageData.
Proof.
  intros H. destruct H as [Hc | e Hc Hf | w Hc Hf Ht | w reply Hc Hf Ht Hr He
                           | w reply response Hc Hf Ht Hr He Hp
                           | w reply x Hc Hf Ht Hr He Hp ].
  - symmetry. apply send_credentials_refused, Hc.
  - symmetry. apply send_factory_rejected; assumption.
  - symmetry. apply (send_falsy_request env client messageData w); assumption.
  - rewrite (send_runs_callback env client messageData w Hc Hf Ht).
    cbv zeta. rewrite Hr. rewrite callback_with_error by (assumption || reflexivity).
    reflexivity.
  - rewrite (send_runs_callback env client messageData w Hc Hf Ht).
    cbv zeta. rewrite Hr.
    rewrite (callback_without_error env _ _ _ _ response) by (assumption || reflexivity).
    reflexivity.
  - rewrite (send_runs_callback env client messageData w Hc Hf Ht).
    cbv zeta. rewrite Hr.
    rewrite (callback_parse_throws env _ _ _ x) by assumption.
    reflexivity.
Qed.

Lemma send_runs {M : Type} (env : Requires M) (client : Client) (messageData : M) :
  Run env client messageData (send env client messageData).
Proof.
  destruct (SendResult_eq_dec
              (result (validateCredentials env (serverId client) (apiKey client)))
              Success) as [Hc | Hc].
  2: { rewrite send_credentials_refused by exact Hc. apply RunRefused, Hc. }
  destruct (generateRequest env messageData) as [w | e] eqn:Hf.
  2: { rewrite (send_factory_rejected env client messageData e Hc Hf).
       apply RunFactoryRejected; assumption. }
  destruct (truthy w) eqn:Ht.
  2: { rewrite (send_falsy_request env client messageData w Hc Hf Ht).
       apply (RunNoRequest env client messageData w); assumption. }
  rewrite (send_runs_callback env client messageData w Hc Hf Ht). cbv zeta.
  remember (request_post env (postOptions client w)) as reply eqn:Hr.
  symmetry in Hr.
  destruct (truthy (err reply)) eqn:He.
  - rewrite callback_with_error by (assumption || reflexivity).
    apply (RunTransportError env client messageData w reply); assumption.
  - destruct (parse env (res reply)) as [response | x] eqn:Hp.
    * rewrite (callback_without_error env _ _ _ _ response)
        by (assumption || reflexivity).
      apply (RunParsed env client messageData w reply response); assumption.
    * rewrite (callback_parse_throws env _ _ _ x) by assumption.
      apply (RunParseThrew env client messageData w reply x); assumption.
Qed.

(** Takes the goal through the six runs of [send]. *)
Ltac by_runs env client messageData :=
  destruct (send_runs env client messageData)
    as [Hc | e Hc Hf | w Hc Hf Ht | w reply Hc Hf Ht Hr He
        | w reply response Hc Hf Ht Hr He Hp
        | w reply x Hc Hf Ht Hr He Hp ];
  cbn [this promise trace].

(** Decides which settle call follows a parsed response. *)
Ltac by_verdict :=
  unfold verdictEvent, verdict;
  repeat match goal with
    | |- context [SendResult_eqb ?a ?b] => destruct (SendResult_eqb a b)
    | |- context [match parse ?e ?r with _ => _ end] => destruct (parse e r)
    end.

(** X2: every call of [send] begins with the credential check on the
    client's own [serverId] and [apiKey], makes that check once, and hands
    [messageData] to the factory exactly when the check returned [Success]. *)
Theorem send_checks_credentials_first :
  forall (M : Type) (env : Requires M) (client : Client) (messageData : M),
    let t := trace (send env client messageData) in
    (exists rest, t = EvValidateCredentials (serverId client) (apiKey client) :: rest)
    /\ credential_checks t = [(serverId client, apiKey client)]
    /\ factory_calls t
       = if SendResult_eqb
              (result (validateCredentials env (serverId client) (apiKey client)))
              Success
         then [messageData]
         else [].
Proof.
  intros M env client messageData t. subst t.
  by_runs env client messageData;
    (split; [ eexists; reflexivity | ]);
    [ apply SendResult_eqb_neq in Hc | apply SendResult_eqb_eq in Hc ..];
    rewrite Hc.
  - split; reflexivity.
  - split; reflexivity.
  - split; reflexivity.
  - destruct (parse env (res reply)) as [response | x]; [ | split; reflexivity ].
    unfold verdictEvent.
    destruct (SendResult_eqb (result response) Success); split; reflexivity.
  - unfold verdictEvent.
    destruct (SendResult_eqb (result response) Success); split; reflexivity.
  - split; reflexivity.
Qed.

(** X3: one call of [send] asks the factory at most once, posts at most
    once, parses at most once, and calls [resolve] or [reject] at most
    twice: nothing is retried. *)
Theorem send_call_counts :
  forall (M : Type) (env : Requires M) (client : Client) (messageData : M),
    let t := trace (send env client messageData) in
    length (factory_calls t) <= 1
    /\ length (posts t) <= 1
    /\ length (parses t) <= 1
    /\ length (settle_calls t) <= 2.
Proof.
  intros M env client messageData t. subst t.
  by_runs env client messageData; by_verdict; cbn; lia.
Qed.

(** X5: [send] calls [resolve] or [reject] a second time only after the
    transport reported an error and [sendResponse.parse] still returned a
    response. *)
Theorem send_second_settle_call :
  forall (M : Type) (env : Requires M) (client : Client) (messageData : M),
    2 <= length (settle_calls (trace (send env client messageData))) ->
    exists requestJson response,
      generateRequest env messageData = FResolved requestJson
      /\ truthy requestJson = true
      /\ truthy (err (request_post env (postOptions client requestJson))) = true
      /\ parse env (res (request_post env (postOptions client requestJson)))
         = Normal response.
Proof.
  intros M env client messageData.
  by_runs env client messageData; try (by_verdict; cbn; lia).
  subst reply.
  destruct (parse env (res (request_post env (postOptions client w))))
    as [response | x] eqn:Hp.
  - intros _. exists w, response. repeat split; assumption.
  - cbn. lia.
Qed.

Lemma send_second_settle_call_witness :
  exists requestJson response,
    generateRequest (Sample.env Sample.connectionReset) (Message.Basic Sample.hi)
    = FResolved requestJson
    /\ truthy requestJson = true
    /\ truthy (err (request_post (Sample.env Sample.connectionReset)
                      (postOptions (Sample.goodClient (Sample.env Sample.connectionReset))
                         requestJson))) = true
    /\ parse (Sample.env Sample.connectionReset)
         (res (request_post (Sample.env Sample.connectionReset)
                 (postOptions (Sample.goodClient (Sample.env Sample.connectionReset))
                    requestJson)))
       = Normal response.
Proof.
  apply (send_second_settle_call _ (Sample.env Sample.connectionReset)
           (Sample.goodClient (Sample.env Sample.connectionReset))
           (Message.Basic Sample.hi)).
  vm_compute. lia.
Defined.

(** X6: whatever [send] posts was built from a truthy request of the
    factory after the credential check returned [Success], and carries the
    very [serverId] and [apiKey] that were checked. *)
Theorem send_posts_only_checked_requests :
  forall (M : Type) (env : Requires M) (client : Client) (messageData : M)
         (options : PostOptions),
    In options (posts (trace (send env client messageData))) ->
    result (validateCredentials env (serverId client) (apiKey client)) = Success
    /\ exists requestJson,
         generateRequest env messageData = FResolved requestJson
         /\ truthy requestJson = true
         /\ options = postOptions client requestJson
         /\ get "serverId" (body options) = serverId client
         /\ get "apiKey" (body options) = apiKey client.
Proof.
  intros M env client messageData options.
  by_runs env client messageData; try (cbn; tauto).
  - rewrite posts_app. cbn.
    destruct (parse env (res reply)); [ rewrite posts_verdict | ]; cbn;
      intros [<- | []]; (split; [ assumption | ]); exists w; repeat split; assumption.
  - change [EvValidateCredentials (serverId client) (apiKey client);
            EvGenerateRequest messageData; EvPost (postOptions client w);
            EvParse (res reply); verdictEvent response]
      with ([EvValidateCredentials (serverId client) (apiKey client);
             EvGenerateRequest messageData; EvPost (postOptions client w);
             EvParse (res reply)] ++ [@verdictEvent M response])%list.
    rewrite posts_app, posts_verdict. cbn.
    intros [<- | []]; (split; [ assumption | ]); exists w; repeat split; assumption.
  - cbn. intros [<- | []]; (split; [ assumption | ]); exists w; repeat split; assumption.
Qed.

Lemma send_posts_only_checked_requests_witness :
  result (validateCredentials (Sample.env Sample.accepted) (JsNum 12345) (JsStr "apiKey"))
  = Success.
Proof.
  refine (proj1 (send_posts_only_checked_requests _ (Sample.env Sample.accepted)
                   (Sample.goodClient (Sample.env Sample.accepted))
                   (Message.Basic Sample.hi) _ _)).
  vm_compute. left. reflexivity.
Defined.

(** X7: [send] resolves only with a response that [sendResponse.parse]
    returned for a reply without transport error and whose result is
    [Success]. *)
Theorem send_resolves_only_with_success :
  forall (M : Type) (env : Requires M) (client : Client) (messageData : M)
         (value : SendResponse),
    promise (send env client messageData) = Fulfilled value ->
    result value = Success
    /\ result (validateCredentials env (serverId client) (apiKey client)) = Success
    /\ exists requestJson,
         generateRequest env messageData = FResolved requestJson
         /\ truthy requestJson = true
         /\ truthy (err (request_post env (postOptions client requestJson))) = false
         /\ parse env (res (request_post env (postOptions client requestJson)))
            = Normal value.
Proof.
  intros M env client messageData value.
  by_runs env client messageData; try discriminate.
  unfold verdict. destruct (SendResult_eqb (result response) Success) eqn:E;
    [ | discriminate ].
  intros [= <-]. apply SendResult_eqb_eq in E. subst reply.
  split; [ exact E | ]. split; [ exact Hc | ].
  exists w. repeat split; assumption.
Qed.

Lemma send_resolves_only_with_success_witness :
  result (mkSendResponse Success None (Some "abc") []) = Success
  /\ result (validateCredentials (Sample.env Sample.accepted)
               (JsNum 12345) (JsStr "apiKey")) = Success.
Proof.
  destruct (send_resolves_only_with_success _ (Sample.env Sample.accepted)
              (Sample.goodClient (Sample.env Sample.accepted))
              (Message.Basic Sample.hi)
              (mkSendResponse Success None (Some "abc") []) eq_refl)
    as [H1 [H2 _]].
  split; assumption.
Defined.

(** X8: a reason [send] rejects with is the result of the credential check
    (not [Success]), or the error the factory rejected with, or the
    [UnknownError] response built from the transport error, or the parsed
    response of a reply without transport error (not [Success]). *)
Theorem send_rejection_origins :
  forall (M : Type) (env : Requires M) (client : Client) (messageData : M)
         (reason : SendResponse),
    promise (send env client messageData) = Rejected reason ->
    let checked := validateCredentials env (serverId client) (apiKey client) in
    (result checked <> Success /\ reason = checked)
    \/ (result checked = Success /\ generateRequest env messageData = FRejected reason)
    \/ (result checked = Success
        /\ exists requestJson,
             generateRequest env messageData = FResolved requestJson
             /\ truthy requestJson = true
             /\ let reply := request_post env (postOptions client requestJson) in
                (truthy (err reply) = true /\ reason = transportFailure (err reply))
                \/ (truthy (err reply) = false
                    /\ parse env (res reply) = Normal reason
                    /\ result reason <> Success)).
Proof.
  intros M env client messageData reason.
  by_runs env client messageData; try discriminate; cbv zeta.
  - intros [= <-]. left. split; [ exact Hc | reflexivity ].
  - intros [= <-]. right; left. split; assumption.
  - intros [= <-]. right; right. split; [ exact Hc | ]. exists w. subst reply.
    repeat split; try assumption. left. split; [ assumption | reflexivity ].
  - unfold verdict.
    destruct (SendResult_eqb (result response) Success) eqn:E; [ discriminate | ].
    intros [= <-]. apply SendResult_eqb_neq in E.
    right; right. split; [ exact Hc | ]. exists w. subst reply.
    repeat split; try assumption. right. repeat split; assumption.
Qed.

Lemma send_rejection_origins_witness :
  (result (validateCredentials (Sample.env Sample.refused) (JsNum 12345) (JsStr "apiKey"))
   <> Success
   /\ new_sendResponse InvalidAuthentication
      = validateCredentials (Sample.env Sample.refused) (JsNum 12345) (JsStr "apiKey"))
  \/ (result (validateCredentials (Sample.env Sample.refused) (JsNum 12345) (JsStr "apiKey"))
      = Success
      /\ generateRequest (Sample.env Sample.refused) (Message.Basic Sample.hi)
         = FRejected (new_sendResponse InvalidAuthentication))
  \/ (result (validateCredentials (Sample.env Sample.refused) (JsNum 12345) (JsStr "apiKey"))
      = Success
      /\ exists requestJson,
           generateRequest (Sample.env Sample.refused) (Message.Basic Sample.hi)
           = FResolved requestJson
           /\ truthy requestJson = true
           /\ ((truthy (err Sample.refused) = true
                /\ new_sendResponse InvalidAuthentication
                   = transportFailure (err Sample.refused))
               \/ (truthy (err Sample.refused) = false
                   /\ parse (Sample.env Sample.refused) (res Sample.refused)
                      = Normal (new_sendResponse InvalidAuthentication)
                   /\ result (new_sendResponse InvalidAuthentication) <> Success))).
Proof.
  exact (send_rejection_origins _ (Sample.env Sample.refused)
           (Sample.goodClient (Sample.env Sample.refused))
           (Message.Basic Sample.hi)
           (new_sendResponse InvalidAuthentication) eq_refl).
Defined.

(** X9: when the credential check returns [Success] and the factory
    rejects, [send] rejects with the factory's error as it is, and neither
    posts nor parses anything. *)
Theorem send_factory_rejection_propagates :
  forall (M : Type) (env : Requires M) (client : Client) (messageData : M)
         (errorResult : SendResponse),
    result (validateCredentials env (serverId client) (apiKey client)) = Success ->
    generateRequest env messageData = FRejected errorResult ->
    let st := send env client messageData in
    promise st = Rejected errorResult
    /\ settle_calls (trace st) = [Rejected errorResult]
    /\ posts (trace st) = []
    /\ parses (trace st) = [].
Proof.
  intros M env client messageData errorResult Hc Hf st. subst st.
  rewrite (send_factory_rejected env client messageData errorResult Hc Hf).
  repeat split.
Qed.

Lemma send_factory_rejection_propagates_witness :
  promise (send (Sample.env Sample.accepted)
             (Sample.goodClient (Sample.env Sample.accepted))
             Sample.noRecipient)
  = Rejected (new_sendResponse RecipientValidationFailed)
  /\ posts (trace (send (Sample.env Sample.accepted)
                     (Sample.goodClient (Sample.env Sample.accepted))
                     Sample.noRecipient)) = [].
Proof.
  destruct (send_factory_rejection_propagates _ (Sample.env Sample.accepted)
              (Sample.goodClient (Sample.env Sample.accepted))
              Sample.noRecipient
              (new_sendResponse RecipientValidationFailed) eq_refl eq_refl)
    as [H1 [_ [H2 _]]].
  split; assumption.
Defined.

(** X10: when the credentials pass, the factory resolves with a truthy
    request, the transport reports no error and [sendResponse.parse] throws,
    the call ends with the promise still pending: after the parse call
    neither [resolve] nor [reject] is called. *)
Theorem send_pending_when_parse_throws :
  forall (M : Type) (env : Requires M) (client : Client) (messageData : M)
         (requestJson thrown : JsValue),
    result (validateCredentials env (serverId client) (apiKey client)) = Success ->
    generateRequest env messageData = FResolved requestJson ->
    truthy requestJson = true ->
    let reply := request_post env (postOptions client requestJson) in
    truthy (err reply) = false ->
    parse env (res reply) = Thrown thrown ->
    let st := send env client messageData in
    promise st = Pending
    /\ settle_calls (trace st) = []
    /\ trace st = [ EvValidateCredentials (serverId client) (apiKey client);
                    EvGenerateRequest messageData;
                    EvPost (postOptions client requestJson);
                    EvParse (res reply) ].
Proof.
  intros M env client messageData requestJson thrown Hc Hf Ht reply He Hp st.
  subst st.
  rewrite <- (run_is_send env client messageData _
                (RunParseThrew env client messageData requestJson reply thrown
                   Hc Hf Ht eq_refl He Hp)).
  repeat split.
Qed.

Lemma send_pending_when_parse_throws_witness :
  promise (send (Sample.strictParse Sample.silent)
             (Sample.goodClient (Sample.strictParse Sample.silent))
             (Message.Basic Sample.hi)) = Pending.
Proof.
  refine (proj1 (send_pending_when_parse_throws _ (Sample.strictParse Sample.silent)
                   (Sample.goodClient (Sample.strictParse Sample.silent))
                   (Message.Basic Sample.hi) _ (JsStr "TypeError") _ _ _ _ _));
    reflexivity.
Defined.

(** X11: when the transport reports an error, the promise of [send] is
    rejected with a response whose result is [UnknownError] and whose
    [responseMessage] is the error when the error is a string; this
    rejection is the first settle call, so nothing [sendResponse.parse]
    returns or throws afterwards, a [Success] response included, changes
    the outcome. *)
Theorem send_transport_error_outcome :
  forall (M : Type) (env : Requires M) (client : Client) (messageData : M)
         (requestJson : JsValue),
    result (validateCredentials env (serverId client) (apiKey client)) = Success ->
    generateRequest env messageData = FResolved requestJson ->
    truthy requestJson = true ->
    let reply := request_post env (postOptions client requestJson) in
    truthy (err reply) = true ->
    let st := send env client messageData in
    exists reason,
      promise st = Rejected reason
      /\ hd_error (settle_calls (trace st)) = Some (Rejected reason)
      /\ result reason = UnknownError
      /\ (forall message, err reply = JsStr message ->
                          responseMessage reason = Some message).
Proof.
  intros M env client messageData requestJson Hc Hf Ht reply He st.
  exists (transportFailure (err reply)).
  subst st.
  rewrite <- (run_is_send env client messageData _
                (RunTransportError env client messageData requestJson reply
                   Hc Hf Ht eq_refl He)).
  cbn [promise trace].
  split; [ reflexivity | ]. split; [ reflexivity | ].
  split.
  - destruct (err reply); reflexivity.
  - intros message ->. reflexivity.
Qed.

Lemma send_transport_error_outcome_witness :
  exists reason,
    promise (send (Sample.env Sample.connectionReset)
               (Sample.goodClient (Sample.env Sample.connectionReset))
               (Message.Basic Sample.hi)) = Rejected reason
    /\ result reason = UnknownError
    /\ responseMessage reason = Some "ECONNRESET".
Proof.
  destruct (send_transport_error_outcome _ (Sample.env Sample.connectionReset)
              (Sample.goodClient (Sample.env Sample.connectionReset))
              (Message.Basic Sample.hi) _ eq_refl eq_refl eq_refl eq_refl)
    as [reason [H1 [_ [H2 H3]]]].
  exists reason. split; [ exact H1 | ]. split; [ exact H2 | ].
  exact (H3 "ECONNRESET" eq_refl).
Defined.

(** ** The constructor (lines 40-73) *)

(** X12: the constructor stores [serverId] and [apiKey] as given, without
    checking them, and takes the endpoint option when it is truthy and the
    default URL otherwise: an absent, [null] or empty endpoint gives the
    default. *)
Theorem constructor_endpoint_rule :
  forall (M : Type) (env : Requires M) (sid key endpoint proxy : JsValue),
    let client := constructor env sid key endpoint proxy in
    serverId client = sid
    /\ apiKey client = key
    /\ endpointUrl client
       = if truthy endpoint
         then endpoint
         else JsStr "https://inject.socketlabs.com/api/v1/email".
Proof.
  intros M env sid key endpoint proxy client. subst client.
  split; [ reflexivity | ]. split; [ reflexivity | ].
  unfold constructor. cbn [endpointUrl].
  destruct endpoint as [ | | b | z | s | items | fields ]; cbn; try reflexivity.
  - destruct b; reflexivity.
  - destruct (z =? 0)%Z; reflexivity.
  - destruct s; reflexivity.
Qed.

(** X13: the constructor calls [request.defaults] once, with
    [{proxy: optionalProxy}], when the proxy option is a non-empty string,
    and not at all for any other value. *)
Theorem constructor_proxy_rule :
  forall proxy : JsValue,
    constructor_defaults proxy
    = match proxy with
      | JsStr s => if s =? "" then [] else [JsObj [("proxy", JsStr s)]]
      | _ => []
      end.
Proof.
  intros proxy. unfold constructor_defaults.
  destruct proxy as [ | | b | z | s | items | fields ]; cbn; try reflexivity.
  - destruct b; reflexivity.
  - destruct (z =? 0)%Z; reflexivity.
  - destruct (s =? ""); reflexivity.
Qed.
